(** * pyrestful/rest.py: route registration and request dispatch

    A shallow embedding of [config], the verb decorators and
    [RestHandler._exe] with its helpers, followed by the properties the
    specification states about them.

    Conventions of the embedding:
    - the module runs under Python 2 and Python 3 (its [PY2] switch);
      where the two differ ([map] over two lists, [with_traceback]) the
      definitions take [PY2] as a parameter;
    - text is ASCII, so [\w] is a letter, a digit or the underscore;
    - the operations of a handler are given as the list that
      [dir(self)] yields, that is, sorted by attribute name;
    - the function behind an operation returns a value or raises; it
      may have default values and varargs, and is called with
      positional arguments only;
    - the transport is tornado 5 or later, run with assertions on, and
      requests carry no conditional headers;
    - a Python value that may be [None] is an [option]; a call that may
      raise returns a sum with the exception on the left. *)

From Stdlib Require Import String Ascii List ZArith Bool Arith Lia.
Import ListNotations.
Local Open Scope string_scope.
Local Open Scope list_scope.
Set Warnings "-register-all".

(** ** The Python values and built-ins the module relies on *)

Module Py.

(** Declared parameter types ([str] and [int]; the float and boolean
    cases of the coercion utility are not used below). *)
Inductive pytype : Type := TStr | TInt.

Inductive pyval : Type :=
| VNone
| VStr (s : string)
| VInt (z : Z)
| VDict (d : list (string * pyval))
| VList (l : list pyval)
| VDoc (xml : string)          (* an xml.dom.minidom.Document and its toxml() *)
| VOther (repr : string).      (* an object of a class that json does not encode *)

Inductive exn : Type :=
| HTTPError (status_code : Z) (log_message : string)
| PyRestfulException (message : string)
| KeyError (key : string)
| TypeError (what : string)
| IndexError
| ValueError (raw : string)
| RuntimeError (what : string)
| AttributeError (attr : string)
| UserError (name : string)
| AssertionError (what : string)
| Exception_with_traceback (cause : exn).

Definition is_HTTPError (e : exn) : bool :=
  match e with HTTPError _ _ => true | _ => false end.

(** [x in l] for a list of strings. *)
Definition str_in (x : string) (l : list string) : bool :=
  existsb (String.eqb x) l.

(** [l1 == l2] for lists of strings. *)
Fixpoint list_eqb (l1 l2 : list string) : bool :=
  match l1, l2 with
  | [], [] => true
  | x :: l1', y :: l2' => String.eqb x y && list_eqb l1' l2'
  | _, _ => false
  end.

Definition cons_char (c : ascii) (l : list string) : list string :=
  match l with
  | [] => [String c ""]
  | w :: ws => String c w :: ws
  end.

(** [s.split(sep)] for a one-character separator. *)
Fixpoint split (sep : ascii) (s : string) : list string :=
  match s with
  | "" => [""]
  | String c s' =>
      if Ascii.eqb c sep then "" :: split sep s'
      else cons_char c (split sep s')
  end.

(** The class [\w] on ASCII text: letters, digits and the underscore. *)
Definition is_word (c : ascii) : bool :=
  let n := nat_of_ascii c in
  (((48 <=? n) && (n <=? 57)) || ((65 <=? n) && (n <=? 90))
   || ((97 <=? n) && (n <=? 122)) || (n =? 95))%nat.

(** The scanner behind [re.findall(r"(?<=d)\w+", s)].  [prev_d] tells
    whether the previous character is [d]; [in_word] tells whether a
    match is being extended, in which case the head of the result is
    the rest of that match. *)
Fixpoint words_after (d : ascii) (prev_d in_word : bool) (s : string)
  : list string :=
  match s with
  | "" => if in_word then [""] else []
  | String c s' =>
      if in_word then
        if is_word c then cons_char c (words_after d false true s')
        else "" :: words_after d (Ascii.eqb c d) false s'
      else if prev_d && is_word c
           then cons_char c (words_after d false true s')
           else words_after d (Ascii.eqb c d) false s'
  end.

Definition findall_after (d : ascii) (s : string) : list string :=
  words_after d false false s.

(** [[x] * n] *)
Definition list_mul {A} (x : A) (n : nat) : list A := repeat x n.

(** [map(f, xs, ys)].  Python 2 pads the shorter list with [None];
    Python 3 stops at the end of the shorter one. *)
Fixpoint map2 {A} (PY2 : bool) (f : option A -> option A -> option A)
  (xs ys : list (option A)) : list (option A) :=
  match xs with
  | [] => if PY2 then map (f None) ys else []
  | x :: xs' =>
      match ys with
      | [] => if PY2 then f x None :: map2 PY2 f xs' [] else []
      | y :: ys' => f x y :: map2 PY2 f xs' ys'
      end
  end.

(** [d[k]] / [k in d.keys()] on a dict kept as an association list. *)
Fixpoint dict_get {V} (d : list (string * V)) (k : string) : option V :=
  match d with
  | [] => None
  | (k', v) :: d' => if String.eqb k k' then Some v else dict_get d' k
  end.

(** What [json.dumps] can encode: [None], strings, integers, and
    lists and dicts of such; a document or an object of another class
    makes it raise. *)
Fixpoint json_encodable (v : pyval) : bool :=
  match v with
  | VNone | VStr _ | VInt _ => true
  | VDict d =>
      (fix all (d : list (string * pyval)) : bool :=
         match d with
         | [] => true
         | (_, x) :: d' => json_encodable x && all d'
         end) d
  | VList l =>
      (fix all (l : list pyval) : bool :=
         match l with
         | [] => true
         | x :: l' => json_encodable x && all l'
         end) l
  | VDoc _ | VOther _ => false
  end.

(** A function: its name, what [inspect.getargspec] reports of it
    ([args] with the receiver first, the [defaults] of the last
    parameters, whether it takes [*varargs]), and its body, which gets
    the values of the parameters after the receiver, followed by the
    further positional arguments when it takes varargs. *)
Record pyfunction : Type := {
  __name__ : string;
  argspec_args : list string;
  argspec_defaults : list pyval;
  argspec_varargs : bool;
  body : list pyval -> exn + pyval
}.

(** [func(self, *args)]: with fewer arguments than parameters the last
    defaults fill in, when there are enough of them; more arguments
    than parameters need varargs. *)
Definition call (f : pyfunction) (args : list pyval) : exn + pyval :=
  let given := S (length args) in
  let params := length (argspec_args f) in
  let defaults := argspec_defaults f in
  if (given <=? params)%nat then
    if (params - given <=? length defaults)%nat
    then body f (args ++ skipn (length defaults - (params - given)) defaults)
    else inl (TypeError "positional arguments")
  else if argspec_varargs f then body f args
       else inl (TypeError "positional arguments").

End Py.
Import Py.

(** ** pyrestful.mediatypes and pyrestful.types *)

Module mediatypes.
(** Modelled from the spec: the constants of pyrestful/mediatypes.py,
    the three produced media types of the data model. *)
Definition APPLICATION_JSON : string := "application/json".
Definition APPLICATION_XML : string := "application/xml".
Definition TEXT_XML : string := "text/xml".
End mediatypes.

Module types.

Definition digit_of (c : ascii) : option Z :=
  let n := nat_of_ascii c in
  if ((48 <=? n) && (n <=? 57))%nat then Some (Z.of_nat (n - 48)%nat) else None.

Fixpoint parse_digits (acc : Z) (s : string) : option Z :=
  match s with
  | "" => Some acc
  | String c s' =>
      match digit_of c with
      | Some k => parse_digits (10 * acc + k)%Z s'
      | None => None
      end
  end.

Definition parse_int (s : string) : option Z :=
  match s with
  | "" => None
  | String "-" ((String _ _) as s') => option_map Z.opp (parse_digits 0 s')
  | String "+" ((String _ _) as s') => parse_digits 0 s'
  | _ => parse_digits 0 s
  end.

(** Modelled from the spec: [convert] of pyrestful/types.py, the Type
    Coercion Utility: integer parse or identity for string, failing with
    a conversion error when the raw value cannot be parsed. *)
Definition convert (value : string) (type : option pytype) : exn + pyval :=
  match type with
  | None => inl (TypeError "issubclass() arg 1 must be a class")
  | Some TStr => inr (VStr value)
  | Some TInt =>
      match parse_int value with
      | Some z => inr (VInt z)
      | None => inl (ValueError value)
      end
  end.

End types.

(** ** Operation descriptors and [config] *)

Record operation : Type := {
  func_name : string;
  _func_params : list string;
  _types : list (option pytype);
  _service_name : list string;
  _service_params : list string;
  _method : string;
  _produces : string;
  _consumes : option string;
  _query_params : list string;
  _path : string;
  _is_coroutine : bool;
  func : pyfunction
}.

(** The keyword arguments a decorator accepts; an absent key is [None]. *)
Record kwparams : Type := {
  kw_path : option string;
  kw_produces : option string;
  kw_consumes : option string;
  kw_types : option (list (option pytype));
  kw_coroutine : option bool
}.

Definition present {A} (o : option A) : nat :=
  match o with Some _ => 1 | None => 0 end.

(** [len(kwparams)] *)
Definition kw_len (kw : kwparams) : nat :=
  (present (kw_path kw) + present (kw_produces kw) + present (kw_consumes kw)
   + present (kw_types kw) + present (kw_coroutine kw))%nat.

(** [a or b] on lists *)
Definition list_or {A} (a b : list A) : list A :=
  match a with [] => b | _ => a end.

Definition allowed_produces : list string :=
  [mediatypes.APPLICATION_JSON; mediatypes.APPLICATION_XML; mediatypes.TEXT_XML].

(** The function object [operation] that [config] returns, with the
    attributes it sets. *)
Definition decorated (f : pyfunction) (method path produces : string)
  (consumes : option string) (types : list (option pytype))
  (is_coroutine : bool) : operation :=
  let func_params := tl (argspec_args f) in
  {| func_name := __name__ f;
     _func_params := func_params;
     _types := list_or types (list_mul (Some TStr) (length func_params));
     _service_name := findall_after "/" path;
     _service_params := findall_after "{" path;
     _method := method;
     _produces := produces;
     _consumes := consumes;
     _query_params := findall_after "<" path;
     _path := path;
     _is_coroutine := is_coroutine;
     func := f |}.

(** [config(func, method, **kwparams)].  Without [_path] nothing is
    built: [kwparams['_path']] raises when other keys are given, and the
    regular expressions reject [path = None] when none is. *)
Definition config (f : pyfunction) (method : string) (kw : kwparams)
  : exn + operation :=
  match kw_path kw with
  | None =>
      if (0 <? kw_len kw)%nat then inl (KeyError "_path")
      else inl (TypeError "expected string or bytes-like object")
  | Some path =>
      let produces :=
        match kw_produces kw with
        | Some p => p
        | None => mediatypes.APPLICATION_JSON
        end in
      let consumes := kw_consumes kw in
      let types := match kw_types kw with Some t => t | None => [] end in
      let is_coroutine :=
        match kw_coroutine kw with Some true => true | _ => false end in
      let operation :=
        decorated f method path produces consumes types is_coroutine in
      if negb (str_in (_produces operation) allowed_produces)
      then inl (PyRestfulException
                  ("The media type used do not exist : " ++ func_name operation)%string)
      else inr operation
  end.

Definition get (kw : kwparams) (f : pyfunction) := config f "GET" kw.
Definition post (kw : kwparams) (f : pyfunction) := config f "POST" kw.
Definition put (kw : kwparams) (f : pyfunction) := config f "PUT" kw.
Definition delete (kw : kwparams) (f : pyfunction) := config f "DELETE" kw.

(** ** The transport: tornado.web.RequestHandler

    The request is read, never changed.  The response side keeps the
    fields the handler methods work on; [finish] hands status, headers
    and buffered chunks to the connection ([sent]) and refuses to run
    twice, and [write] refuses to run after it.  [write] encodes a dict
    at once, which fails on a value that JSON cannot encode, and then
    sets the Content-Type itself; [finish] asserts that a response
    whose status allows no body has none.  The text of an encoded chunk
    is kept symbolic.  Of the headers only those that the handler
    methods set are kept: Server, Date, Content-Length and Etag are left
    out.  [calls] logs the operations invoked, with their positional
    arguments. *)

Record HTTPRequest : Type := {
  request_path : string;
  request_method : string;
  request_arguments : list (string * list string)
}.

Inductive chunk : Type :=
| Chunk_dict (d : list (string * pyval))
| Chunk_json_dumps (l : list pyval)
| Chunk_str (s : string).

Record response : Type := {
  status : Z;
  headers : list (string * string);
  content : list chunk
}.

Record handler : Type := {
  _status_code : Z;
  _headers : list (string * string);
  _write_buffer : list chunk;
  _finished : bool;
  sent : option response;
  calls : list (string * list pyval)
}.

Definition default_headers : list (string * string) :=
  [("Content-Type", "text/html; charset=UTF-8")].

(** A handler as the transport creates it for a request. *)
Definition fresh : handler :=
  {| _status_code := 200; _headers := default_headers; _write_buffer := [];
     _finished := false; sent := None; calls := [] |}.

(** State and exceptions, threaded through the handler methods. *)
Definition M (A : Type) : Type := handler -> handler * (exn + A).

Definition ret {A} (a : A) : M A := fun h => (h, inr a).

Definition raise {A} (e : exn) : M A := fun h => (h, inl e).

Definition bind {A B} (m : M A) (k : A -> M B) : M B :=
  fun h => match m h with
           | (h', inr a) => k a h'
           | (h', inl e) => (h', inl e)
           end.

Definition try_except {A} (m : M A) (except : exn -> M A) : M A :=
  fun h => match m h with
           | (h', inl e) => except e h'
           | r => r
           end.

Definition lift {A} (r : exn + A) : M A := fun h => (h, r).

Declare Scope py_scope.
Delimit Scope py_scope with py.
Notation "x <- m ;; k" := (bind m (fun x => k))
  (at level 61, m at next level, right associativity) : py_scope.
Notation "m ;; k" := (bind m (fun _ => k))
  (at level 61, right associativity) : py_scope.
Local Open Scope py_scope.

Definition clear : M unit :=
  fun h => ({| _status_code := 200; _headers := default_headers;
               _write_buffer := []; _finished := _finished h;
               sent := sent h; calls := calls h |}, inr tt).

Definition set_status (status_code : Z) : M unit :=
  fun h => ({| _status_code := status_code; _headers := _headers h;
               _write_buffer := _write_buffer h; _finished := _finished h;
               sent := sent h; calls := calls h |}, inr tt).

Definition set_header (name value : string) : M unit :=
  fun h => ({| _status_code := _status_code h;
               _headers :=
                 filter (fun kv => negb (String.eqb (fst kv) name)) (_headers h)
                 ++ [(name, value)];
               _write_buffer := _write_buffer h; _finished := _finished h;
               sent := sent h; calls := calls h |}, inr tt).

Definition not_serializable : exn :=
  TypeError "Object is not JSON serializable".

(** [json.dumps(response)] for a list. *)
Definition json_dumps (l : list pyval) : exn + chunk :=
  if json_encodable (VList l) then inr (Chunk_json_dumps l)
  else inl not_serializable.

Definition write (c : chunk) : M unit :=
  fun h =>
    if _finished h then (h, inl (RuntimeError "Cannot write() after finish()"))
    else
      match c with
      | Chunk_dict d =>
          if json_encodable (VDict d) then
            ({| _status_code := _status_code h;
                _headers :=
                  filter (fun kv => negb (String.eqb (fst kv) "Content-Type"))
                         (_headers h)
                  ++ [("Content-Type", "application/json; charset=UTF-8")];
                _write_buffer := _write_buffer h ++ [c]; _finished := false;
                sent := sent h; calls := calls h |}, inr tt)
          else (h, inl not_serializable)
      | _ =>
          ({| _status_code := _status_code h; _headers := _headers h;
              _write_buffer := _write_buffer h ++ [c]; _finished := false;
              sent := sent h; calls := calls h |}, inr tt)
      end.

(** The statuses whose response has no body: 204, 304 and 1xx. *)
Definition no_body (status : Z) : bool :=
  (Z.eqb status 204 || Z.eqb status 304
   || (Z.leb 100 status && Z.ltb status 200))%bool.

Definition is_nil {A} (l : list A) : bool :=
  match l with [] => true | _ => false end.

Definition finish : M unit :=
  fun h =>
    if _finished h then (h, inl (RuntimeError "finish() called twice"))
    else if no_body (_status_code h) && negb (is_nil (_write_buffer h))
    then (h, inl (AssertionError "Cannot send body with this status"))
    else ({| _status_code := _status_code h; _headers := _headers h;
             _write_buffer := []; _finished := true;
             sent := Some {| status := _status_code h; headers := _headers h;
                             content := _write_buffer h |};
             calls := calls h |}, inr tt).

(** The call of the bound method with the positional values. *)
Definition invoke (operation : operation) (p_values : list pyval) : M pyval :=
  fun h => ({| _status_code := _status_code h; _headers := _headers h;
               _write_buffer := _write_buffer h; _finished := _finished h;
               sent := sent h;
               calls := calls h ++ [(func_name operation, p_values)] |},
            call (func operation) p_values).

(** ** RestHandler *)

Module RestHandler.

Section Dispatch.

Variable PY2 : bool.
(** [self.request] *)
Variable request : HTTPRequest.
(** The operations of the handler, in the order [dir(self)] lists them. *)
Variable functions : list operation.

Definition _list_from_filter {A} (f : A -> bool) (iterable : list A) : list A :=
  if PY2 then filter f iterable else filter f iterable.

Definition gen_http_error (status : Z) (msg : string) : M unit :=
  clear ;;
  set_status status ;;
  write (Chunk_str ("<html><body>" ++ msg ++ "</body></html>")%string) ;;
  finish.

Definition _find_params_value_of_url (services : list string) (url : string)
  : list string :=
  let url_split := split "/" url in
  let values :=
    filter (fun item => negb (str_in item services) && negb (String.eqb item ""))
           url_split in
  fold_left (fun values_of_query v => values_of_query ++ [v]) values [].

Fixpoint _arguments_loop (params : list string) : exn + list (option string) :=
  match params with
  | [] => inr []
  | p :: params' =>
      match dict_get (request_arguments request) p with
      | Some v =>
          match v with
          | [] => inl IndexError
          | v0 :: _ =>
              match _arguments_loop params' with
              | inr values => inr (Some v0 :: values)
              | inl e => inl e
              end
          end
      | None =>
          match _arguments_loop params' with
          | inr values => inr (None :: values)
          | inl e => inl e
          end
      end
  end.

Definition _find_params_value_of_arguments (operation : operation)
  : exn + list (option string) :=
  if (0 <? length (request_arguments request))%nat then
    let a := _service_params operation in
    let b := _func_params operation in
    let params := filter (fun item => negb (str_in item a)) b in
    _arguments_loop params
  else if ((length (request_arguments request) =? 0)
           && (0 <? length (_query_params operation)))%nat then
    inr (list_mul None
           (length (_func_params operation) - length (_service_params operation)))
  else inr [].

Fixpoint _convert_loop (values_list : list (option string))
  (params_types : list (option pytype)) (i : nat) : exn + list pyval :=
  match values_list with
  | [] => inr []
  | v :: values_list' =>
      match v with
      | Some raw =>
          match nth_error params_types i with
          | None => inl IndexError
          | Some t =>
              match types.convert raw t with
              | inl e => inl e
              | inr x =>
                  match _convert_loop values_list' params_types (S i) with
                  | inr values => inr (x :: values)
                  | inl e => inl e
                  end
              end
          end
      | None =>
          match _convert_loop values_list' params_types (S i) with
          | inr values => inr (VNone :: values)
          | inl e => inl e
          end
      end
  end.

Definition _convert_params_values (values_list : list (option string))
  (params_types : list (option pytype)) : exn + list pyval :=
  _convert_loop values_list params_types 0.

(** The non-empty segments of the request path. *)
Definition services_and_params : list string :=
  _list_from_filter (fun x => negb (String.eqb x ""))
                    (split "/" (request_path request)).

(** The types used for coercion: declared types merged with [str]. *)
Definition params_types_of (operation : operation) : list (option pytype) :=
  let service_params := _service_params operation in
  let params_types :=
    list_or (_types operation) (list_mul (Some TStr) (length service_params)) in
  map2 PY2 (fun x y => match x with None => y | Some _ => x end)
       params_types (list_mul (Some TStr) (length service_params)).

(** The condition under which the scan handles an operation. *)
Definition is_match (operation : operation) : bool :=
  let path := split "/" (request_path request) in
  let service_name := _service_name operation in
  let service_params := _service_params operation in
  let services_from_request :=
    _list_from_filter (fun x => str_in x path) service_name in
  String.eqb (_method operation) (request_method request)
  && list_eqb service_name services_from_request
  && (length service_params + length service_name
      =? length services_and_params)%nat.

(** The [except] clauses of the scan. *)
Definition reraise (e : exn) : exn :=
  if PY2 then AttributeError "with_traceback" else Exception_with_traceback e.

Definition except (e : exn) : M bool :=
  match e with
  | HTTPError status_code _ =>
      gen_http_error status_code "HTTP Error" ;; ret false
  | _ =>
      gen_http_error 500 "Internal Server Error" ;; raise (reraise e)
  end.

Definition mismatch (produces : string) : M bool :=
  gen_http_error 500
    ("Internal Server Error : response is not " ++ produces ++ " document")%string ;;
  ret false.

(** The [try] block for a matching operation; [true] stands for the
    [return] that leaves [_exe]. *)
Definition try_block (operation : operation) : M bool :=
  let service_name := _service_name operation in
  let produces := _produces operation in
  a <- lift (_find_params_value_of_arguments operation) ;;
  let params_values :=
    map Some (_find_params_value_of_url service_name (request_path request))
    ++ a in
  p_values <- lift (_convert_params_values params_values
                      (params_types_of operation)) ;;
  response <- invoke operation p_values ;;
  match response with
  | VNone => ret true
  | _ =>
      set_header "Content-Type" produces ;;
      match response with
      | VDict d =>
          if String.eqb produces mediatypes.APPLICATION_JSON
          then write (Chunk_dict d) ;; finish ;; ret false
          else mismatch produces
      | VList l =>
          if String.eqb produces mediatypes.APPLICATION_JSON
          then text <- lift (json_dumps l) ;; write text ;; finish ;; ret false
          else mismatch produces
      | VDoc xml =>
          if str_in produces [mediatypes.APPLICATION_XML; mediatypes.TEXT_XML]
          then write (Chunk_str xml) ;; finish ;; ret false
          else mismatch produces
      | _ => mismatch produces
      end
  end.

Definition handle (operation : operation) : M bool :=
  try_except (try_block operation) except.

Fixpoint scan (operations : list operation) : M unit :=
  match operations with
  | [] => ret tt
  | operation :: rest =>
      if is_match operation then
        returned <- handle operation ;;
        if returned then ret tt else scan rest
      else scan rest
  end.

Definition _exe (method : string) : M unit :=
  let http_methods := map _method functions in
  if negb (str_in method http_methods) then
    raise (HTTPError 405 ("The service not have " ++ method ++ " verb")%string)
  else scan functions.

Definition get : M unit := _exe "GET".
Definition post : M unit := _exe "POST".
Definition put : M unit := _exe "PUT".
Definition delete : M unit := _exe "DELETE".

End Dispatch.

End RestHandler.

(** ** Vocabulary of the specification *)

(** The non-empty segments of a request path. *)
Definition nonempty_segments (path : string) : list string :=
  filter (fun x => negb (String.eqb x "")) (split "/" path).

(** The supported pairs of produced media type and result shape. *)
Definition supported (produces : string) (response : pyval) : bool :=
  match response with
  | VDict _ | VList _ => String.eqb produces mediatypes.APPLICATION_JSON
  | VDoc _ => str_in produces [mediatypes.APPLICATION_XML; mediatypes.TEXT_XML]
  | _ => false
  end.

(** The body of an error page. *)
Definition error_page (status : Z) (msg : string) : response :=
  {| status := status; headers := default_headers;
     content := [Chunk_str ("<html><body>" ++ msg ++ "</body></html>")%string] |}.

(** The positional values the dispatcher computes for an operation. *)
Definition positional_values (PY2 : bool) (request : HTTPRequest)
  (op : operation) : exn + list pyval :=
  match RestHandler._find_params_value_of_arguments request op with
  | inl e => inl e
  | inr a =>
      RestHandler._convert_params_values
        (map Some (RestHandler._find_params_value_of_url
                     (_service_name op) (request_path request)) ++ a)
        (RestHandler.params_types_of PY2 op)
  end.

(** The handler after [finish] has sent [r]. *)
Definition closed (r : response) (log : list (string * list pyval)) : handler :=
  {| _status_code := status r; _headers := headers r; _write_buffer := [];
     _finished := true; sent := Some r; calls := log |}.

(** A fresh handler after the calls in [log]. *)
Definition called (log : list (string * list pyval)) : handler :=
  {| _status_code := 200; _headers := default_headers; _write_buffer := [];
     _finished := false; sent := None; calls := log |}.

(** The chunk written for a supported result. *)
Definition body_of (response : pyval) : list chunk :=
  match response with
  | VDict d => [Chunk_dict d]
  | VList l => [Chunk_json_dumps l]
  | VDoc xml => [Chunk_str xml]
  | _ => []
  end.

(** Whether a result of a supported shape can be written. *)
Definition encodes (result : pyval) : bool :=
  match result with
  | VDict _ | VList _ => json_encodable result
  | _ => true
  end.

(** The Content-Type of the answer: the transport sets its own when it
    encodes a dict. *)
Definition content_type (produces : string) (result : pyval) : string :=
  match result with
  | VDict _ => "application/json; charset=UTF-8"
  | _ => produces
  end.

(** The response that carries a result of a supported shape. *)
Definition answer (produces : string) (result : pyval) : response :=
  {| status := 200;
     headers := [("Content-Type", content_type produces result)];
     content := body_of result |}.

(** The page for a result of no supported shape. *)
Definition mismatch_page (produces : string) : response :=
  error_page 500
    ("Internal Server Error : response is not " ++ produces ++ " document")%string.

(** The handler left behind when [finish] refuses the page of a status
    that allows no body. *)
Definition refused (status : Z) (msg : string)
  (log : list (string * list pyval)) : handler :=
  {| _status_code := status; _headers := default_headers;
     _write_buffer := content (error_page status msg);
     _finished := false; sent := None; calls := log |}.

(** What the [except] clauses make of an exception on a handler that
    has neither finished nor sent: the state left and the result of the
    iteration. *)
Definition translated (PY2 : bool) (log : list (string * list pyval))
  (e : exn) : handler * (exn + bool) :=
  match e with
  | HTTPError status_code _ =>
      if no_body status_code
      then (refused status_code "HTTP Error" log,
            inl (AssertionError "Cannot send body with this status"))
      else (closed (error_page status_code "HTTP Error") log, inr false)
  | _ =>
      (closed (error_page 500 "Internal Server Error") log,
       inl (RestHandler.reraise PY2 e))
  end.

(** What becomes of the result of the operation's function. *)
Definition answered (PY2 : bool) (produces : string)
  (log : list (string * list pyval)) (result : pyval)
  : handler * (exn + bool) :=
  match result with
  | VNone => (called log, inr true)
  | _ =>
      if supported produces result then
        if encodes result
        then (closed (answer produces result) log, inr false)
        else translated PY2 log not_serializable
      else (closed (mismatch_page produces) log, inr false)
  end.

(** What handling a matching operation does to a fresh handler. *)
Definition handled (PY2 : bool) (request : HTTPRequest) (op : operation)
  : handler * (exn + bool) :=
  match positional_values PY2 request op with
  | inl e => translated PY2 [] e
  | inr p =>
      let log := [(func_name op, p)] in
      match call (func op) p with
      | inl e => translated PY2 log e
      | inr r => answered PY2 (_produces op) log r
      end
  end.

(** *** Path templates by segments *)

Inductive segment : Type :=
| Literal (token : string)
| PathVar (name : string).

Fixpoint template_of (segs : list segment) : string :=
  match segs with
  | [] => ""
  | Literal t :: segs' => "/" ++ t ++ template_of segs'
  | PathVar n :: segs' => "/{" ++ n ++ "}" ++ template_of segs'
  end%string.

Definition literals (segs : list segment) : list string :=
  flat_map (fun s => match s with Literal t => [t] | PathVar _ => [] end) segs.

Definition path_variables (segs : list segment) : list string :=
  flat_map (fun s => match s with Literal _ => [] | PathVar n => [n] end) segs.

Fixpoint all_chars (p : ascii -> bool) (s : string) : bool :=
  match s with
  | "" => true
  | String c s' => p c && all_chars p s'
  end.

(** A token or variable name: a non-empty run of word characters. *)
Definition is_name (s : string) : bool :=
  negb (String.eqb s "") && all_chars is_word s.

Definition well_formed (segs : list segment) : bool :=
  forallb (fun s => match s with Literal t => is_name t | PathVar n => is_name n end)
          segs.

Definition starts_nonword (s : string) : bool :=
  match s with
  | "" => true
  | String c _ => negb (is_word c)
  end.

(** What may follow the segments of a template: the query markers,
    which begin with no word character and hold neither [/] nor [{]. *)
Definition is_decoration (s : string) : bool :=
  starts_nonword s
  && all_chars (fun c => negb (Ascii.eqb c "/") && negb (Ascii.eqb c "{")) s.

(** A value of a path variable: non-empty, without [/]. *)
Definition is_value (s : string) : bool :=
  negb (String.eqb s "") && all_chars (fun c => negb (Ascii.eqb c "/")) s.

(** The path of a request with the given segments. *)
Fixpoint url_of (values : list string) : string :=
  match values with
  | [] => ""
  | v :: values' => "/" ++ v ++ url_of values'
  end%string.

(** [values] fills the template position by position: its literal
    tokens in place, a value for each path variable. *)
Fixpoint instantiates (segs : list segment) (values : list string) : bool :=
  match segs, values with
  | [], [] => true
  | Literal t :: segs', v :: values' =>
      String.eqb v t && instantiates segs' values'
  | PathVar _ :: segs', v :: values' =>
      is_value v && instantiates segs' values'
  | _, _ => false
  end.

(** Some path variable is given a value that is one of [tokens]. *)
Fixpoint clashes (tokens : list string) (segs : list segment)
  (values : list string) : bool :=
  match segs, values with
  | PathVar _ :: segs', v :: values' =>
      str_in v tokens || clashes tokens segs' values'
  | Literal _ :: segs', _ :: values' => clashes tokens segs' values'
  | _, _ => false
  end.

Fixpoint distinct (l : list string) : bool :=
  match l with
  | [] => true
  | x :: l' => negb (str_in x l') && distinct l'
  end.

Definition subset (l1 l2 : list string) : bool :=
  forallb (fun x => str_in x l2) l1.

(** The matches of [(?<=d)\w+] in a template, segment by segment. *)
Definition found (d : ascii) (segs : list segment) : list string :=
  flat_map (fun s => match s with
                     | Literal t => if Ascii.eqb "/" d then [t] else []
                     | PathVar n => if Ascii.eqb "{" d then [n] else []
                     end) segs.

(** A handler method that leaves a finished response as it was sent. *)
Definition keeps_sent {A} (m : M A) : Prop :=
  forall h, _finished h = true ->
            _finished (fst (m h)) = true /\ sent (fst (m h)) = sent h.

From Stdlib Require Import Permutation.

(** ** Routes: from path templates to the table of the application *)

Module Re.

(** [re.sub(r"(?<={)\w+}", ".*", s)].  [prev_open] tells whether the
    previous character is an opening brace; [pending] holds the word
    characters read after one, which are replaced together with the
    closing brace when it follows them and kept otherwise. *)
Fixpoint sub_path_variables (prev_open : bool) (pending : option string)
  (s : string) : string :=
  match s with
  | "" => match pending with Some w => w | None => "" end
  | String c s' =>
      match pending with
      | Some w =>
          if is_word c
          then sub_path_variables false (Some (w ++ String c "")) s'
          else if Ascii.eqb c "}"
               then ".*" ++ sub_path_variables false None s'
               else w ++ String c (sub_path_variables (Ascii.eqb c "{") None s')
      | None =>
          if prev_open && is_word c
          then sub_path_variables false (Some (String c "")) s'
          else String c (sub_path_variables (Ascii.eqb c "{") None s')
      end
  end%string.

(** [re.sub(r"(?<=d)\w+", "", s)] *)
Fixpoint delete_words_after (d : ascii) (prev_d in_word : bool) (s : string)
  : string :=
  match s with
  | "" => ""
  | String c s' =>
      if in_word then
        if is_word c then delete_words_after d false true s'
        else String c (delete_words_after d (Ascii.eqb c d) false s')
      else if prev_d && is_word c
           then delete_words_after d false true s'
           else String c (delete_words_after d (Ascii.eqb c d) false s')
  end.

(** [s.replace(c, "")] for a one-character [c]. *)
Fixpoint remove_char (c : ascii) (s : string) : string :=
  match s with
  | "" => ""
  | String x s' =>
      if Ascii.eqb x c then remove_char c s' else String x (remove_char c s')
  end.

(** Whether [pattern + "$"] matches all of [s], for a pattern made of
    literal characters and [.*]; the dot matches no newline. *)
Fixpoint fullmatch (pattern : string) : string -> bool :=
  match pattern with
  | "" => fun s => String.eqb s ""
  | String c pattern1 =>
      let literal :=
        fun s => match s with
                 | "" => false
                 | String x s' => Ascii.eqb x c && fullmatch pattern1 s'
                 end in
      match pattern1 with
      | "" => literal
      | String c2 pattern2 =>
          if Ascii.eqb c "." && Ascii.eqb c2 "*" then
            fix any (s : string) : bool :=
              fullmatch pattern2 s
              || match s with
                 | "" => false
                 | String x s' => negb (Ascii.eqb x "010") && any s'
                 end
          else literal
      end
  end.

End Re.

(** The route pattern computed from a path template, as in
    [get_handlers] and [_generateRestServices]. *)
Definition route_of (p : string) : string :=
  let s := Re.remove_char "{" (Re.sub_path_variables false None p) in
  let o :=
    Re.remove_char "?"
      (Re.remove_char "&"
         (Re.remove_char ">"
            (Re.remove_char "<" (Re.delete_words_after "<" false false s)))) in
  o.

(** A handler class: its name and its decorated methods, in the order
    [dir(cls)] lists them. *)
Record handler_class : Type := {
  class_name : string;
  class_functions : list operation
}.

Module RestHandlerClass.

Definition get_services (cls : handler_class) : list (list string) :=
  map _service_name (class_functions cls).

Definition get_paths (cls : handler_class) : list string :=
  map _path (class_functions cls).

Definition get_handlers (cls : handler_class) : list (string * handler_class) :=
  map (fun p => (route_of p, cls)) (get_paths cls).

End RestHandlerClass.

(** An entry of the table handed to the tornado application: one made
    for a handler class with the shared resource, or one of the extra
    [handlers], which this module passes on untouched. *)
Inductive route (Resource Extra : Type) : Type :=
| Rest (pattern : string) (cls : handler_class) (resource : Resource)
| Other (spec : Extra).

Arguments Rest {Resource Extra}.
Arguments Other {Resource Extra}.

Module RestService.

Section Table.

Variables Resource Extra : Type.

Definition _generateRestServices (resource : Resource) (rest : handler_class)
  : list (route Resource Extra) :=
  map (fun p => Rest (route_of p) rest resource)
      (RestHandlerClass.get_paths rest).

(** The list [restservices] that [__init__] passes to the application. *)
Definition __init__ (rest_handlers : list handler_class) (resource : Resource)
  (handlers : option (list Extra)) : list (route Resource Extra) :=
  let restservices := flat_map (_generateRestServices resource) rest_handlers in
  match handlers with
  | Some hs => restservices ++ map Other hs
  | None => restservices
  end.

End Table.

End RestService.

Module WSGIRestService.

Section Table.

Variables Resource Extra : Type.

Definition _generateRestServices (resource : Resource) (rest : handler_class)
  : list (route Resource Extra) :=
  map (fun p => Rest (route_of p) rest resource)
      (RestHandlerClass.get_paths rest).

Definition __init__ (rest_handlers : list handler_class) (resource : Resource)
  (handlers : option (list Extra)) : list (route Resource Extra) :=
  let restservices := flat_map (_generateRestServices resource) rest_handlers in
  match handlers with
  | Some hs => restservices ++ map Other hs
  | None => restservices
  end.

End Table.

End WSGIRestService.

(** *** More vocabulary *)

(** The values that fill the path variables, in template order. *)
Fixpoint variable_values (segs : list segment) (values : list string)
  : list string :=
  match segs, values with
  | Literal _ :: segs', _ :: values' => variable_values segs' values'
  | PathVar _ :: segs', v :: values' => v :: variable_values segs' values'
  | _, _ => []
  end.

(** The query markers that may follow the segments of a template. *)
Inductive marker : Type :=
| Query (name : string)
| Ampersand
| Question.

Fixpoint markers_of (ms : list marker) : string :=
  match ms with
  | [] => ""
  | Query n :: ms' => "<" ++ n ++ ">" ++ markers_of ms'
  | Ampersand :: ms' => "&" ++ markers_of ms'
  | Question :: ms' => "?" ++ markers_of ms'
  end%string.

Definition query_names (ms : list marker) : list string :=
  flat_map (fun m => match m with Query n => [n] | _ => [] end) ms.

Definition well_formed_markers (ms : list marker) : bool :=
  forallb (fun m => match m with Query n => is_name n | _ => true end) ms.

(** The route of a template, segment by segment. *)
Fixpoint route_pattern (segs : list segment) : string :=
  match segs with
  | [] => ""
  | Literal t :: segs' => "/" ++ t ++ route_pattern segs'
  | PathVar _ :: segs' => "/.*" ++ route_pattern segs'
  end%string.

(** Membership of a character in a string. *)
Fixpoint has_char (c : ascii) (s : string) : bool :=
  match s with
  | "" => false
  | String x s' => Ascii.eqb x c || has_char c s'
  end.

(** A handler method that leaves the log of calls as it is. *)
Definition keeps_calls {A} (m : M A) : Prop :=
  forall h, calls (fst (m h)) = calls h.

(** A handler method that raises no [HTTPError]. *)
Definition raises_no_HTTPError {A} (m : M A) : Prop :=
  forall h e, snd (m h) = inl e -> is_HTTPError e = false.

(** The characters of the query markers. *)
Definition is_marker_char (c : ascii) : bool :=
  Ascii.eqb c "<" || Ascii.eqb c ">" || Ascii.eqb c "&" || Ascii.eqb c "?".

(** The four [replace] calls that end the computation of a route. *)
Definition strip_markers (s : string) : string :=
  Re.remove_char "?"
    (Re.remove_char "&" (Re.remove_char ">" (Re.remove_char "<" s))).

(** ** Handlers and requests used as concrete inputs *)

Module Examples.

Definition only_path (path : string) : kwparams :=
  {| kw_path := Some path; kw_produces := None; kw_consumes := None;
     kw_types := None; kw_coroutine := None |}.

Definition path_and_types (path : string) (types : list (option pytype))
  : kwparams :=
  {| kw_path := Some path; kw_produces := None; kw_consumes := None;
     kw_types := Some types; kw_coroutine := None |}.

Definition GET (path : string) : HTTPRequest :=
  {| request_path := path; request_method := "GET"; request_arguments := [] |}.

Definition def (name : string) (args : list string)
  (body : list pyval -> exn + pyval) : pyfunction :=
  {| __name__ := name; argspec_args := "self" :: args;
     argspec_defaults := []; argspec_varargs := false; body := body |}.

(** [@get(_path="/users/{id}", _types=[int]) def getUser(self, id)] *)
Definition getUser_def : pyfunction :=
  def "getUser" ["id"] (fun _ => inr (VDict [("id", VInt 1)])).
Definition getUser : operation :=
  decorated getUser_def "GET" "/users/{id}" mediatypes.APPLICATION_JSON
            None [Some TInt] false.

(** The same function registered without [_types]. *)
Definition getUser_untyped : operation :=
  decorated getUser_def "GET" "/users/{id}" mediatypes.APPLICATION_JSON
            None [] false.

(** [@get(_path="/users/active") def getActive(self)] *)
Definition getActive_def : pyfunction :=
  def "getActive" [] (fun _ => inr (VDict [("active", VList [])])).
Definition getActive : operation :=
  decorated getActive_def "GET" "/users/active" mediatypes.APPLICATION_JSON
            None [] false.

(** [@get(_path="/search<q>", _types=[int]) def search(self, q)] *)
Definition search_def : pyfunction :=
  def "search" ["q"] (fun args => inr (VList args)).
Definition search : operation :=
  decorated search_def "GET" "/search<q>" mediatypes.APPLICATION_JSON
            None [Some TInt] false.

(** A GET and a POST operation on the same literal path. *)
Definition listItems_def : pyfunction :=
  def "listItems" [] (fun _ => inr (VList [])).
Definition listItems : operation :=
  decorated listItems_def "GET" "/items" mediatypes.APPLICATION_JSON
            None [] false.
Definition addItem_def : pyfunction :=
  def "addItem" [] (fun _ => inr (VDict [])).
Definition addItem : operation :=
  decorated addItem_def "POST" "/items" mediatypes.APPLICATION_JSON
            None [] false.

(** Operations whose function raises, or returns an unsupported result. *)
Definition missing_def : pyfunction :=
  def "missing" [] (fun _ => inl (HTTPError 404 "no such item")).
Definition missing : operation :=
  decorated missing_def "GET" "/missing" mediatypes.APPLICATION_JSON
            None [] false.
Definition broken_def : pyfunction :=
  def "broken" [] (fun _ => inl (UserError "ZeroDivisionError")).
Definition broken : operation :=
  decorated broken_def "GET" "/broken" mediatypes.APPLICATION_JSON
            None [] false.
Definition text_def : pyfunction :=
  def "text" [] (fun _ => inr (VStr "hello")).
Definition text : operation :=
  decorated text_def "GET" "/text" mediatypes.APPLICATION_JSON
            None [] false.

(** [@get(_path="/a/{x}/{y}", _types=[int, int]) def pair(self, x, y)] *)
Definition pair_def : pyfunction :=
  def "pair" ["x"; "y"] (fun args => inr (VList args)).
Definition pair : operation :=
  decorated pair_def "GET" "/a/{x}/{y}" mediatypes.APPLICATION_JSON
            None [Some TInt; Some TInt] false.

(** [@get(_path="/a/{x}/{y}<q>&<r>") def pair_query(self, x, y, q, r)] *)
Definition pair_query_def : pyfunction :=
  def "pair_query" ["x"; "y"; "q"; "r"] (fun args => inr (VList args)).
Definition pair_query : operation :=
  decorated pair_query_def "GET" "/a/{x}/{y}<q>&<r>"
            mediatypes.APPLICATION_JSON None [] false.

End Examples.

(** ** Further handlers used as concrete inputs *)

Module MoreExamples.

(** [@get(_path="/ping") def ping(self)], which returns nothing. *)
Definition ping_def : pyfunction :=
  Examples.def "ping" [] (fun _ => inr VNone).
Definition ping : operation :=
  decorated ping_def "GET" "/ping" mediatypes.APPLICATION_JSON None [] false.

(** [@get(_path="/feed", _produces=mediatypes.APPLICATION_XML)
    def feed(self)], which returns a document. *)
Definition feed_def : pyfunction :=
  Examples.def "feed" [] (fun _ => inr (VDoc "<feed/>")).
Definition feed : operation :=
  decorated feed_def "GET" "/feed" mediatypes.APPLICATION_XML None [] false.

Definition Users : handler_class :=
  {| class_name := "Users";
     class_functions := [Examples.getActive; Examples.getUser] |}.

Definition Items : handler_class :=
  {| class_name := "Items";
     class_functions := [Examples.addItem; Examples.listItems] |}.



(** [@get(_path="/now") def now(self)], which returns a dict with a
    value that JSON cannot encode. *)
Definition now_def : pyfunction :=
  Examples.def "now" [] (fun _ => inr (VDict [("now", VOther "datetime")])).
Definition now : operation :=
  decorated now_def "GET" "/now" mediatypes.APPLICATION_JSON None [] false.

(** [@get(_path="/users/{id}<q>") def getUser(self, id, q=None)] *)
Definition getUser_default_def : pyfunction :=
  {| __name__ := "getUser"; argspec_args := ["self"; "id"; "q"];
     argspec_defaults := [VNone]; argspec_varargs := false;
     body := fun args => inr (VDict [("args", VList args)]) |}.
Definition getUser_default : operation :=
  decorated getUser_default_def "GET" "/users/{id}<q>"
            mediatypes.APPLICATION_JSON None [] false.

End MoreExamples.

(** ** Lists and strings *)

Lemma str_in_In (x : string) (l : list string) :
  str_in x l = true <-> In x l.
Proof.
  unfold str_in. rewrite existsb_exists. split.
  - intros [y [Hy E]]. apply String.eqb_eq in E. now subst.
  - intros H. exists x. split; [assumption | apply String.eqb_refl].
Qed.

Lemma str_in_false (x : string) (l : list string) :
  str_in x l = false <-> ~ In x l.
Proof.
  rewrite <- str_in_In. destruct (str_in x l); split; congruence.
Qed.

Lemma list_eqb_eq (l1 l2 : list string) :
  list_eqb l1 l2 = true <-> l1 = l2.
Proof.
  revert l2. induction l1 as [|x l1 IH]; intros [|y l2]; simpl;
    try (split; congruence).
  rewrite andb_true_iff, String.eqb_eq, IH. split.
  - intros [-> ->]. reflexivity.
  - intros E. injection E. auto.
Qed.

Lemma filter_length_le {A} (p : A -> bool) (l : list A) :
  length (filter p l) <= length l.
Proof.
  induction l as [|a l IH]; simpl; [lia|]. destruct (p a); simpl; lia.
Qed.

Lemma filter_fixed {A} (p : A -> bool) (l : list A) :
  filter p l = l <-> forallb p l = true.
Proof.
  induction l as [|a l IH]; simpl; [tauto|].
  destruct (p a) eqn:E; simpl.
  - rewrite <- IH. split; [intros H; injection H; auto | intros ->; reflexivity].
  - split; [|discriminate]. intros H.
    pose proof (filter_length_le p l) as L. rewrite H in L. simpl in L. lia.
Qed.

Lemma fold_left_snoc {A} (l acc : list A) :
  fold_left (fun values v => values ++ [v]) l acc = acc ++ l.
Proof.
  revert acc. induction l as [|a l IH]; intros acc; simpl.
  - now rewrite app_nil_r.
  - rewrite IH, <- app_assoc. reflexivity.
Qed.

Lemma cons_char_nonempty (c : ascii) (l : list string) :
  (forall x, In x (tl l) -> x <> "") ->
  forall x, In x (cons_char c l) -> x <> "".
Proof.
  intros H x. destruct l as [|w ws]; simpl.
  - intros [<-|[]]. discriminate.
  - intros [<-|Hx]; [discriminate | now apply H].
Qed.

(** No match of [\w+] is empty. *)
Lemma words_after_nonempty (d : ascii) (s : string) :
  forall prev_d,
    (forall x, In x (words_after d prev_d false s) -> x <> "")
    /\ (forall x, In x (tl (words_after d prev_d true s)) -> x <> "").
Proof.
  induction s as [|c s IH]; intros prev_d; simpl.
  - split; intros x [].
  - split.
    + destruct (prev_d && is_word c).
      * apply cons_char_nonempty. apply IH.
      * apply IH.
    + destruct (is_word c).
      * destruct (words_after d false true s) as [|w ws] eqn:E; simpl.
        -- intros x [].
        -- intros x Hx. destruct (IH false) as [_ H]. apply H.
           rewrite E. exact Hx.
      * simpl. apply IH.
Qed.

Lemma findall_after_nonempty (d : ascii) (s x : string) :
  In x (findall_after d s) -> x <> "".
Proof. apply words_after_nonempty. Qed.

Lemma nonempty_segments_In (path x : string) :
  In x (nonempty_segments path) <-> In x (split "/" path) /\ x <> "".
Proof.
  unfold nonempty_segments. rewrite filter_In, negb_true_iff, String.eqb_neq.
  reflexivity.
Qed.

(** ** The dispatcher's helpers *)

Lemma _list_from_filter_filter {A} PY2 (f : A -> bool) (l : list A) :
  RestHandler._list_from_filter PY2 f l = filter f l.
Proof. unfold RestHandler._list_from_filter. now destruct PY2. Qed.

Lemma services_and_params_segments PY2 request :
  RestHandler.services_and_params PY2 request
  = nonempty_segments (request_path request).
Proof. apply _list_from_filter_filter. Qed.

Lemma config_service_name f method kw op :
  config f method kw = inr op ->
  exists path, kw_path kw = Some path
               /\ _path op = path
               /\ _service_name op = findall_after "/" path
               /\ _service_params op = findall_after "{" path
               /\ _query_params op = findall_after "<" path
               /\ _func_params op = tl (argspec_args f)
               /\ _method op = method
               /\ func op = f.
Proof.
  unfold config. destruct (kw_path kw) as [path|].
  - destruct (negb _); [discriminate|]. intros E. injection E as <-.
    exists path. simpl. repeat split.
  - destruct (0 <? kw_len kw)%nat; discriminate.
Qed.

Lemma is_match_spec PY2 request op :
  (forall x, In x (_service_name op) -> x <> "") ->
  RestHandler.is_match PY2 request op = true <->
  (_method op = request_method request
   /\ (forall x, In x (_service_name op) ->
                 In x (nonempty_segments (request_path request)))
   /\ length (_service_params op) + length (_service_name op)
      = length (nonempty_segments (request_path request))).
Proof.
  intros Hn. unfold RestHandler.is_match.
  rewrite services_and_params_segments, _list_from_filter_filter.
  rewrite !andb_true_iff, String.eqb_eq, Nat.eqb_eq, list_eqb_eq.
  assert (B : _service_name op
              = filter (fun x => str_in x (split "/" (request_path request)))
                       (_service_name op)
              <-> forall x, In x (_service_name op) ->
                            In x (nonempty_segments (request_path request))).
  { split.
    - intros E x Hx. apply nonempty_segments_In. split.
      + rewrite E in Hx. apply filter_In in Hx. now apply str_in_In.
      + now apply Hn.
    - intros H. symmetry. apply filter_fixed, forallb_forall.
      intros x Hx. apply str_in_In. now apply nonempty_segments_In, H. }
  rewrite B. tauto.
Qed.

(** C1. A descriptor built by [config] is handled by the scan exactly
    when its verb is the request's verb, each of its literal tokens
    occurs among the non-empty segments of the request path, and its
    path variables and literal tokens together are as many as those
    segments. *)
Theorem C1_match_iff PY2 request f method kw op :
  config f method kw = inr op ->
  RestHandler.is_match PY2 request op = true <->
  (_method op = request_method request
   /\ (forall x, In x (_service_name op) ->
                 In x (nonempty_segments (request_path request)))
   /\ length (_service_params op) + length (_service_name op)
      = length (nonempty_segments (request_path request))).
Proof.
  intros Hc. destruct (config_service_name _ _ _ _ Hc)
    as (path & _ & _ & Hn & _).
  apply is_match_spec. intros x Hx. rewrite Hn in Hx.
  now apply findall_after_nonempty in Hx.
Qed.

(** ** The scan *)

Lemma scan_skip PY2 request pre rest h :
  Forall (fun op => RestHandler.is_match PY2 request op = false) pre ->
  RestHandler.scan PY2 request (pre ++ rest) h
  = RestHandler.scan PY2 request rest h.
Proof.
  induction 1 as [|op pre Hop _ IH]; simpl; [reflexivity|].
  now rewrite Hop.
Qed.

Lemma scan_first_match PY2 request pre op post h :
  Forall (fun op => RestHandler.is_match PY2 request op = false) pre ->
  RestHandler.is_match PY2 request op = true ->
  RestHandler.scan PY2 request (pre ++ op :: post) h
  = match RestHandler.handle PY2 request op h with
    | (h', inr true) => (h', inr tt)
    | (h', inr false) => RestHandler.scan PY2 request post h'
    | (h', inl e) => (h', inl e)
    end.
Proof.
  intros Hpre Hop. rewrite scan_skip by assumption. simpl. rewrite Hop.
  unfold bind. destruct (RestHandler.handle PY2 request op h) as [h' [e|[|]]];
    reflexivity.
Qed.

Lemma _exe_scan PY2 request functions method h :
  str_in method (map _method functions) = true ->
  RestHandler._exe PY2 request functions method h
  = RestHandler.scan PY2 request functions h.
Proof. intros H. unfold RestHandler._exe. now rewrite H. Qed.

(** *** Once the response is finished, what was sent stays as it is *)

Create HintDb keeps.

Lemma keeps_ret {A} (a : A) : keeps_sent (ret a).
Proof. intros h H. now split. Qed.

Lemma keeps_raise {A} (e : exn) : keeps_sent (@raise A e).
Proof. intros h H. now split. Qed.

Lemma keeps_lift {A} (r : exn + A) : keeps_sent (lift r).
Proof. intros h H. now split. Qed.

Lemma keeps_bind {A B} (m : M A) (k : A -> M B) :
  keeps_sent m -> (forall a, keeps_sent (k a)) -> keeps_sent (bind m k).
Proof.
  intros Hm Hk h H. unfold bind. destruct (Hm h H) as [F S].
  destruct (m h) as [h' [e|a]]; simpl in *; [now split|].
  destruct (Hk a h' F) as [F' S']. split; congruence.
Qed.

Lemma keeps_try_except {A} (m : M A) (k : exn -> M A) :
  keeps_sent m -> (forall e, keeps_sent (k e)) -> keeps_sent (try_except m k).
Proof.
  intros Hm Hk h H. unfold try_except. destruct (Hm h H) as [F S].
  destruct (m h) as [h' [e|a]]; simpl in *; [|now split].
  destruct (Hk e h' F) as [F' S']. split; congruence.
Qed.

Lemma keeps_clear : keeps_sent clear.
Proof. intros h H. now split. Qed.

Lemma keeps_set_status s : keeps_sent (set_status s).
Proof. intros h H. now split. Qed.

Lemma keeps_set_header k v : keeps_sent (set_header k v).
Proof. intros h H. now split. Qed.

Lemma keeps_write c : keeps_sent (write c).
Proof. intros h H. unfold write. rewrite H. now split. Qed.

Lemma keeps_finish : keeps_sent finish.
Proof. intros h H. unfold finish. rewrite H. now split. Qed.

Lemma keeps_invoke op p : keeps_sent (invoke op p).
Proof. intros h H. now split. Qed.

#[local] Hint Resolve keeps_ret keeps_raise keeps_lift keeps_clear
  keeps_set_status keeps_set_header keeps_write keeps_finish keeps_invoke
  : keeps.

Ltac keeps :=
  repeat first
    [ apply keeps_bind; [|intros ?]
    | apply keeps_try_except; [|intros ?]
    | solve [auto with keeps] ].

Lemma keeps_gen_http_error s msg :
  keeps_sent (RestHandler.gen_http_error s msg).
Proof. unfold RestHandler.gen_http_error. keeps. Qed.

#[local] Hint Resolve keeps_gen_http_error : keeps.

Lemma keeps_mismatch produces :
  keeps_sent (RestHandler.mismatch produces).
Proof. unfold RestHandler.mismatch. keeps. Qed.

#[local] Hint Resolve keeps_mismatch : keeps.

Lemma keeps_except PY2 e : keeps_sent (RestHandler.except PY2 e).
Proof. unfold RestHandler.except. destruct e; keeps. Qed.

Lemma keeps_try_block PY2 request op :
  keeps_sent (RestHandler.try_block PY2 request op).
Proof.
  unfold RestHandler.try_block. keeps.
  match goal with |- keeps_sent (match ?r with _ => _ end) => destruct r end;
    keeps;
    match goal with |- keeps_sent (if ?b then _ else _) => destruct b end;
    keeps.
Qed.

Lemma keeps_handle PY2 request op :
  keeps_sent (RestHandler.handle PY2 request op).
Proof.
  apply keeps_try_except; [apply keeps_try_block | apply keeps_except].
Qed.

Lemma keeps_scan PY2 request ops :
  keeps_sent (RestHandler.scan PY2 request ops).
Proof.
  induction ops as [|op ops IH]; simpl; [apply keeps_ret|].
  destruct (RestHandler.is_match PY2 request op); [|exact IH].
  apply keeps_bind; [apply keeps_handle|].
  intros [|]; [apply keeps_ret | exact IH].
Qed.

(** *** Handling a matching operation on a fresh handler *)

Lemma except_unsent PY2 e h :
  _finished h = false -> sent h = None ->
  RestHandler.except PY2 e h = translated PY2 (calls h) e.
Proof.
  destruct h as [st hd buf fin snt log]. simpl. intros -> ->.
  destruct e; try reflexivity.
  unfold RestHandler.except, RestHandler.gen_http_error, translated, bind,
    clear, set_status, write, finish. simpl.
  destruct (no_body status_code); reflexivity.
Qed.

Lemma except_called PY2 log e :
  RestHandler.except PY2 e (called log) = translated PY2 log e.
Proof. now apply (except_unsent PY2 e (called log)). Qed.

(** The [try] block on a fresh handler: what it returns or raises, and
    the handler it leaves. *)
Lemma try_block_fresh PY2 request op :
  RestHandler.try_block PY2 request op fresh
  = match positional_values PY2 request op with
    | inl e => (fresh, inl e)
    | inr p =>
        let log := [(func_name op, p)] in
        match call (func op) p with
        | inl e => (called log, inl e)
        | inr VNone => (called log, inr true)
        | inr r =>
            if supported (_produces op) r then
              if encodes r
              then (closed (answer (_produces op) r) log, inr false)
              else (fst (set_header "Content-Type" (_produces op) (called log)),
                    inl not_serializable)
            else (closed (mismatch_page (_produces op)) log, inr false)
        end
    end.
Proof.
  unfold RestHandler.try_block, positional_values, bind, lift.
  destruct (RestHandler._find_params_value_of_arguments request op) as [e|a];
    [reflexivity|].
  destruct (RestHandler._convert_params_values _ _) as [e|p]; [reflexivity|].
  unfold invoke. simpl calls.
  destruct (call (func op) p) as [e|r]; [reflexivity|].
  unfold supported, encodes, answer, content_type, json_dumps.
  destruct r; try reflexivity; simpl;
    match goal with |- context [if ?b then _ else _] => destruct b end;
    try reflexivity;
    unfold write; simpl;
    match goal with |- context [if ?b then _ else _] => destruct b end;
    reflexivity.
Qed.

Lemma handle_fresh PY2 request op :
  RestHandler.handle PY2 request op fresh = handled PY2 request op.
Proof.
  unfold RestHandler.handle, try_except. rewrite try_block_fresh.
  unfold handled.
  destruct (positional_values PY2 request op) as [e|p].
  { change fresh with (called []). apply except_called. }
  cbv zeta. destruct (call (func op) p) as [e|r]; [apply except_called|].
  unfold answered.
  destruct r; try reflexivity;
    (destruct (supported (_produces op) _); [|reflexivity]);
    (destruct (encodes _); [reflexivity|]);
    now apply except_unsent.
Qed.

(** The example operations are what the decorators return. *)
Lemma examples_registered :
  get (Examples.path_and_types "/users/{id}" [Some TInt]) Examples.getUser_def
  = inr Examples.getUser
  /\ get (Examples.only_path "/users/{id}") Examples.getUser_def
     = inr Examples.getUser_untyped
  /\ get (Examples.only_path "/users/active") Examples.getActive_def
     = inr Examples.getActive
  /\ get (Examples.path_and_types "/search<q>" [Some TInt]) Examples.search_def
     = inr Examples.search
  /\ get (Examples.only_path "/items") Examples.listItems_def
     = inr Examples.listItems
  /\ post (Examples.only_path "/items") Examples.addItem_def
     = inr Examples.addItem
  /\ get (Examples.only_path "/missing") Examples.missing_def
     = inr Examples.missing
  /\ get (Examples.only_path "/broken") Examples.broken_def
     = inr Examples.broken
  /\ get (Examples.only_path "/text") Examples.text_def = inr Examples.text
  /\ get (Examples.path_and_types "/a/{x}/{y}" [Some TInt; Some TInt])
         Examples.pair_def
     = inr Examples.pair
  /\ get (Examples.only_path "/a/{x}/{y}<q>&<r>") Examples.pair_query_def
     = inr Examples.pair_query.
Proof. repeat split. Qed.

Lemma C1_match_iff_witness :
  RestHandler.is_match false (Examples.GET "/users/42") Examples.getUser = true.
Proof.
  apply (proj2 (C1_match_iff false (Examples.GET "/users/42")
                  Examples.getUser_def "GET"
                  (Examples.path_and_types "/users/{id}" [Some TInt])
                  Examples.getUser eq_refl)).
  split; [reflexivity|]. split; [|reflexivity].
  intros x [<-|[]]. left. reflexivity.
Defined.

(** C2. The scan does not stop at the first match when that match
    wrote a response: with [getActive] on [/users/active] and [getUser]
    on [/users/{id}], a GET of [/users/active] matches both; the first
    is invoked and answers, and the second is still invoked; its
    attempt to write to the finished response then leaves [_exe] with
    an exception. *)
Theorem C2_scan_continues_after_first_match :
  let request := Examples.GET "/users/active" in
  let functions := [Examples.getActive; Examples.getUser_untyped] in
  let result := RestHandler.get false request functions fresh in
  RestHandler.is_match false request Examples.getActive = true
  /\ RestHandler.is_match false request Examples.getUser_untyped = true
  /\ RestHandler.handle false request Examples.getActive fresh
     = (closed {| status := 200;
                  headers := [("Content-Type",
                               "application/json; charset=UTF-8")];
                  content := [Chunk_dict [("active", VList [])]] |}
               [("getActive", [])], inr false)
  /\ calls (fst result) = [("getActive", []); ("getUser", [VStr "active"])]
  /\ snd result = inl (RuntimeError "Cannot write() after finish()").
Proof. vm_compute. repeat split. Qed.

(** *** Coercion types under Python 3 *)

Lemma map2_py3_length {A} (f : option A -> option A -> option A) xs ys :
  length (map2 false f xs ys) = Nat.min (length xs) (length ys).
Proof.
  revert ys. induction xs as [|x xs IH]; intros [|y ys]; simpl; auto.
Qed.

(** Under Python 3 there are never more coercion types than path
    variables. *)
Lemma params_types_of_py3_length op :
  length (RestHandler.params_types_of false op) <= length (_service_params op).
Proof.
  unfold RestHandler.params_types_of, list_mul.
  rewrite map2_py3_length, repeat_length. lia.
Qed.

(** Without path variables no value can be coerced under Python 3. *)
Lemma py3_first_value_index_error op raw rest :
  _service_params op = [] ->
  RestHandler._convert_params_values
    (Some raw :: rest) (RestHandler.params_types_of false op)
  = inl IndexError.
Proof.
  intros H. pose proof (params_types_of_py3_length op) as L.
  rewrite H in L. simpl in L.
  destruct (RestHandler.params_types_of false op) as [|t ts] eqn:E;
    [|simpl in L; lia].
  reflexivity.
Qed.

(** C3. For [search], declared on [/search<q>] with [_types=[int]]: a
    GET of [/search] without query string invokes it with [None]; a GET
    with [q=5] under Python 3 finds no coercion type at the position of
    [q], so the function is not invoked and the request ends as an
    internal error.  Under Python 2 the function is invoked with 5. *)
Theorem C3_query_value_python3 :
  let with_q :=
    {| request_path := "/search"; request_method := "GET";
       request_arguments := [("q", ["5"])] |} in
  calls (fst (RestHandler.get false (Examples.GET "/search")
                [Examples.search] fresh))
  = [("search", [VNone])]
  /\ RestHandler.params_types_of false Examples.search = []
  /\ positional_values false with_q Examples.search = inl IndexError
  /\ RestHandler.get false with_q [Examples.search] fresh
     = (closed (error_page 500 "Internal Server Error") [],
        inl (Exception_with_traceback IndexError))
  /\ calls (fst (RestHandler.get true with_q [Examples.search] fresh))
     = [("search", [VInt 5])].
Proof. vm_compute. repeat split. Qed.

(** *** Registration *)

(** C4. A descriptor that [config] returns produces one of the three
    media types, and JSON when none was supplied; a supplied type outside
    the three makes [config] raise instead of returning a descriptor, so
    no such descriptor ever reaches the dispatcher. *)
Theorem C4_produces_checked_at_registration f method kw :
  (forall op, config f method kw = inr op ->
              In (_produces op) allowed_produces
              /\ (kw_produces kw = None ->
                  _produces op = mediatypes.APPLICATION_JSON))
  /\ (forall path, kw_path kw = Some path -> kw_produces kw = None ->
                   exists op, config f method kw = inr op
                              /\ _produces op = mediatypes.APPLICATION_JSON)
  /\ (forall produces, kw_produces kw = Some produces ->
                       ~ In produces allowed_produces ->
                       exists e, config f method kw = inl e
                                 /\ (kw_path kw <> None ->
                                     e = PyRestfulException
                                           ("The media type used do not exist : "
                                            ++ __name__ f)%string)).
Proof.
  unfold config. split; [|split].
  - intros op. destruct (kw_path kw) as [path|].
    + cbv zeta. destruct (str_in _ allowed_produces) eqn:E; cbn [negb];
        [|discriminate].
      intros H. injection H as <-. split.
      * apply str_in_In. exact E.
      * intros Hn. cbn. now rewrite Hn.
    + destruct (0 <? kw_len kw)%nat; discriminate.
  - intros path -> ->. simpl. eexists. split; reflexivity.
  - intros produces -> Hp. apply str_in_false in Hp.
    destruct (kw_path kw) as [path|].
    + cbv zeta. cbn [_produces decorated func_name]. rewrite Hp. cbn [negb].
      eexists. split; reflexivity.
    + destruct (0 <? kw_len kw)%nat; eexists; (split; [reflexivity|]);
        intros H; now contradiction H.
Qed.

(** *** Path-derived values *)

Lemma _find_params_value_of_url_filter services url :
  RestHandler._find_params_value_of_url services url
  = filter (fun s => negb (str_in s services)) (nonempty_segments url).
Proof.
  unfold RestHandler._find_params_value_of_url, nonempty_segments.
  rewrite fold_left_snoc. simpl.
  induction (split "/" url) as [|x l IH]; simpl; [reflexivity|].
  destruct (String.eqb x ""); simpl.
  - now rewrite andb_false_r.
  - rewrite andb_true_r. destruct (str_in x services); simpl; now rewrite IH.
Qed.

Lemma handled_calls PY2 request op p :
  positional_values PY2 request op = inr p ->
  calls (fst (handled PY2 request op)) = [(func_name op, p)].
Proof.
  unfold handled. intros ->. cbv zeta.
  destruct (call (func op) p) as [e|r].
  - destruct e; try reflexivity. simpl. now destruct (no_body status_code).
  - unfold answered.
    destruct r; try reflexivity;
      (destruct (supported (_produces op) _); [|reflexivity]);
      destruct (encodes _); reflexivity.
Qed.

Lemma get_single PY2 request op h :
  _method op = "GET" ->
  RestHandler.is_match PY2 request op = true ->
  fst (RestHandler.get PY2 request [op] h)
  = fst (RestHandler.handle PY2 request op h).
Proof.
  intros Hm Hop. unfold RestHandler.get.
  rewrite _exe_scan by (simpl; rewrite Hm; reflexivity).
  change [op] with ([] ++ [op]).
  rewrite (scan_first_match PY2 request [] op [] h (Forall_nil _) Hop).
  destruct (RestHandler.handle PY2 request op h) as [h' [e|[|]]]; reflexivity.
Qed.

(** C5. The path-derived values are the non-empty segments of the
    request path that are none of the descriptor's literal tokens, in
    their order; for [getUser], declared on [/users/{id}] with
    [_types=[int]], a GET of [/users/42] without query string yields
    ["42"], and the function is invoked with the integer 42, whatever
    its body. *)
Theorem C5_users_42 PY2 (body : list pyval -> exn + pyval) :
  let f := Examples.def "getUser" ["id"] body in
  let request := Examples.GET "/users/42" in
  (forall services url,
      RestHandler._find_params_value_of_url services url
      = filter (fun s => negb (str_in s services)) (nonempty_segments url))
  /\ exists op,
      get (Examples.path_and_types "/users/{id}" [Some TInt]) f = inr op
      /\ _service_name op = ["users"]
      /\ _service_params op = ["id"]
      /\ RestHandler.is_match PY2 request op = true
      /\ RestHandler._find_params_value_of_url (_service_name op) "/users/42"
         = ["42"]
      /\ positional_values PY2 request op = inr [VInt 42]
      /\ calls (fst (RestHandler.get PY2 request [op] fresh))
         = [("getUser", [VInt 42])].
Proof.
  intros f request. split; [apply _find_params_value_of_url_filter|].
  exists (decorated f "GET" "/users/{id}" mediatypes.APPLICATION_JSON
                    None [Some TInt] false).
  split; [reflexivity|].
  assert (Hm : RestHandler.is_match PY2 request
                 (decorated f "GET" "/users/{id}" mediatypes.APPLICATION_JSON
                            None [Some TInt] false) = true)
    by (destruct PY2; reflexivity).
  assert (Hp : positional_values PY2 request
                 (decorated f "GET" "/users/{id}" mediatypes.APPLICATION_JSON
                            None [Some TInt] false) = inr [VInt 42])
    by (destruct PY2; reflexivity).
  repeat (split; [reflexivity || assumption|]).
  rewrite get_single by (reflexivity || assumption).
  rewrite handle_fresh. exact (handled_calls _ _ _ _ Hp).
Qed.

(** *** The verb gate *)

(** C6. When the verb is declared by none of the handler's operations,
    [_exe] raises the 405 error at once: the handler is left as it was,
    so nothing was matched, invoked or written. *)
Theorem C6_verb_gate PY2 request functions method h :
  str_in method (map _method functions) = false ->
  RestHandler._exe PY2 request functions method h
  = (h, inl (HTTPError 405 ("The service not have " ++ method ++ " verb")%string)).
Proof. intros H. unfold RestHandler._exe. now rewrite H. Qed.

Lemma C6_verb_gate_witness :
  RestHandler.put false
    {| request_path := "/items"; request_method := "PUT";
       request_arguments := [] |}
    [Examples.addItem; Examples.listItems] fresh
  = (fresh, inl (HTTPError 405 "The service not have PUT verb")).
Proof.
  exact (C6_verb_gate false
           {| request_path := "/items"; request_method := "PUT";
              request_arguments := [] |}
           [Examples.addItem; Examples.listItems] "PUT" fresh eq_refl).
Defined.

(** *** Errors and response negotiation *)


Lemma scan_closed_sent PY2 request ops r log :
  sent (fst (RestHandler.scan PY2 request ops (closed r log))) = Some r.
Proof. now destruct (keeps_scan PY2 request ops (closed r log) eq_refl). Qed.




Lemma handled_result PY2 request op p r :
  positional_values PY2 request op = inr p ->
  call (func op) p = inr r ->
  handled PY2 request op
  = answered PY2 (_produces op) [(func_name op, p)] r.
Proof. unfold handled. now intros -> ->. Qed.

(** C8. When the function of the first matching operation returns a
    result other than [None] on a fresh handler: a dict that JSON can
    encode, under application/json, is sent as the body with status 200
    and the Content-Type that the transport sets for a dict,
    application/json; charset=UTF-8; a result that fits no supported
    combination is answered with a 500 error page, the handling raises
    nothing, and [_exe] returns normally when no later operation
    matches. *)
Theorem C8_response_negotiation PY2 request pre op post method p r :
  str_in method (map _method (pre ++ op :: post)) = true ->
  Forall (fun o => RestHandler.is_match PY2 request o = false) pre ->
  RestHandler.is_match PY2 request op = true ->
  positional_values PY2 request op = inr p ->
  call (func op) p = inr r ->
  r <> VNone ->
  let result :=
    RestHandler._exe PY2 request (pre ++ op :: post) method fresh in
  let page :=
    error_page 500 ("Internal Server Error : response is not "
                    ++ _produces op ++ " document")%string in
  (forall d, r = VDict d -> _produces op = mediatypes.APPLICATION_JSON ->
             json_encodable (VDict d) = true ->
             sent (fst result)
             = Some {| status := 200;
                       headers := [("Content-Type",
                                    "application/json; charset=UTF-8")];
                       content := [Chunk_dict d] |})
  /\ (supported (_produces op) r = false ->
      RestHandler.handle PY2 request op fresh
      = (closed page [(func_name op, p)], inr false)
      /\ sent (fst result) = Some page
      /\ (Forall (fun o => RestHandler.is_match PY2 request o = false) post ->
          snd result = inr tt)).
Proof.
  intros Hv Hpre Hop Hp Hc Hr result page. subst result.
  rewrite _exe_scan, scan_first_match by assumption.
  rewrite handle_fresh, (handled_result _ _ _ _ _ Hp Hc).
  split.
  - intros d -> Hj He. unfold answered, supported, encodes.
    rewrite Hj, He. simpl. apply scan_closed_sent.
  - intros Hs.
    assert (A : answered PY2 (_produces op) [(func_name op, p)] r
                = (closed page [(func_name op, p)], inr false)).
    { unfold answered. rewrite Hs. destruct r; (reflexivity || congruence). }
    rewrite A, scan_closed_sent. repeat split.
    intros Hpost. rewrite <- (app_nil_r post), scan_skip by assumption.
    reflexivity.
Qed.

Lemma C8_response_negotiation_witness :
  sent (fst (RestHandler.get false (Examples.GET "/users/42")
               [Examples.getUser] fresh))
  = Some {| status := 200;
            headers := [("Content-Type", "application/json; charset=UTF-8")];
            content := [Chunk_dict [("id", VInt 1)]] |}
  /\ (sent (fst (RestHandler.get false (Examples.GET "/text")
                   [Examples.text] fresh))
      = Some (error_page 500
                "Internal Server Error : response is not application/json document")
      /\ snd (RestHandler.get false (Examples.GET "/text")
                [Examples.text] fresh) = inr tt).
Proof.
  split.
  - exact (proj1 (C8_response_negotiation false (Examples.GET "/users/42") []
                    Examples.getUser [] "GET" [VInt 42]
                    (VDict [("id", VInt 1)])
                    eq_refl (Forall_nil _) eq_refl eq_refl eq_refl
                    ltac:(discriminate))
                 [("id", VInt 1)] eq_refl eq_refl eq_refl).
  - pose proof (proj2 (C8_response_negotiation false (Examples.GET "/text") []
                         Examples.text [] "GET" [] (VStr "hello")
                         eq_refl (Forall_nil _) eq_refl eq_refl eq_refl
                         ltac:(discriminate)) eq_refl) as [_ [S R]].
    split; [exact S | exact (R (Forall_nil _))].
Defined.

(** C8, as first stated, fails in two ways.  A dict with a value that
    JSON cannot encode is not sent: [write] raises, the client gets the
    500 page and [_exe] raises.  And the Content-Type of a dict that is
    sent is the one [write] sets, not application/json alone. *)
Lemma C8_counterexample :
  let opaque :=
    RestHandler.get false (Examples.GET "/now") [MoreExamples.now] fresh in
  let user :=
    RestHandler.get false (Examples.GET "/users/42") [Examples.getUser] fresh in
  _produces MoreExamples.now = mediatypes.APPLICATION_JSON
  /\ call (func MoreExamples.now) [] = inr (VDict [("now", VOther "datetime")])
  /\ sent (fst opaque) = Some (error_page 500 "Internal Server Error")
  /\ snd opaque = inl (Exception_with_traceback not_serializable)
  /\ option_map headers (sent (fst user))
     = Some [("Content-Type", "application/json; charset=UTF-8")]
  /\ option_map headers (sent (fst user))
     <> Some [("Content-Type", "application/json")].
Proof. vm_compute. repeat split. discriminate. Qed.

(** C9. When the verb is declared but no operation matches, [_exe]
    returns normally and leaves the handler as it was: nothing is
    invoked, written or sent. *)
Theorem C9_no_match_no_response PY2 request functions method h :
  str_in method (map _method functions) = true ->
  Forall (fun o => RestHandler.is_match PY2 request o = false) functions ->
  RestHandler._exe PY2 request functions method h = (h, inr tt).
Proof.
  intros Hv Hf. rewrite _exe_scan by assumption.
  rewrite <- (app_nil_r functions), scan_skip by assumption. reflexivity.
Qed.

Lemma C9_no_match_no_response_witness :
  RestHandler.get false (Examples.GET "/orders/7") [Examples.getUser] fresh
  = (fresh, inr tt).
Proof.
  apply (C9_no_match_no_response false (Examples.GET "/orders/7")
           [Examples.getUser] "GET" fresh eq_refl).
  repeat constructor.
Defined.

(** ** Templates and request paths by segments *)

Lemma append_assoc (a b c : string) :
  ((a ++ b) ++ c = a ++ (b ++ c))%string.
Proof. induction a as [|x a IH]; simpl; [reflexivity | now rewrite IH]. Qed.

Lemma append_empty_r (a : string) : (a ++ "" = a)%string.
Proof. induction a as [|x a IH]; simpl; [reflexivity | now rewrite IH]. Qed.

Lemma words_after_prev_irrelevant d p q s :
  starts_nonword s = true ->
  words_after d p false s = words_after d q false s.
Proof.
  destruct s as [|c s]; simpl; [reflexivity|].
  intros H. apply negb_true_iff in H. rewrite H, !andb_false_r. reflexivity.
Qed.

Lemma words_after_close d q s :
  starts_nonword s = true ->
  words_after d false true s = "" :: words_after d q false s.
Proof.
  destruct s as [|c s]; simpl; [reflexivity|].
  intros H. apply negb_true_iff in H. rewrite H, andb_false_r. reflexivity.
Qed.

Lemma words_after_token d w s :
  all_chars is_word w = true ->
  starts_nonword s = true ->
  words_after d false true (w ++ s) = w :: words_after d false false s.
Proof.
  intros Hw Hs. induction w as [|c w IH]; simpl in *.
  - now apply words_after_close.
  - apply andb_true_iff in Hw as [Hc Hw]. rewrite Hc, (IH Hw). reflexivity.
Qed.

Lemma words_after_enter d w s :
  is_name w = true ->
  starts_nonword s = true ->
  words_after d true false (w ++ s) = w :: words_after d false false s.
Proof.
  unfold is_name. destruct w as [|c w]; [discriminate|]. simpl.
  intros Hw Hs. apply andb_true_iff in Hw as [Hc Hw].
  rewrite Hc, (words_after_token d w s Hw Hs). reflexivity.
Qed.

Lemma is_word_neq d c :
  is_word d = false -> is_word c = true -> Ascii.eqb c d = false.
Proof.
  intros Hd Hc. apply Ascii.eqb_neq. intros ->. congruence.
Qed.

Lemma words_after_skip d w s :
  is_word d = false ->
  all_chars is_word w = true ->
  words_after d false false (w ++ s) = words_after d false false s.
Proof.
  intros Hd Hw. induction w as [|c w IH]; simpl in *; [reflexivity|].
  apply andb_true_iff in Hw as [Hc Hw].
  rewrite (is_word_neq d c Hd Hc). now apply IH.
Qed.

Lemma is_name_all_chars w : is_name w = true -> all_chars is_word w = true.
Proof. unfold is_name. now intros [_ H]%andb_true_iff. Qed.

Lemma starts_nonword_template segs deco :
  starts_nonword deco = true ->
  starts_nonword (template_of segs ++ deco) = true.
Proof. destruct segs as [|[t|n] segs]; simpl; auto. Qed.

#[local] Arguments Ascii.eqb : simpl never.
Lemma words_after_template d segs deco :
  is_word d = false ->
  Ascii.eqb "}" d = false ->
  well_formed segs = true ->
  starts_nonword deco = true ->
  forall p,
    words_after d p false (template_of segs ++ deco)
    = found d segs ++ words_after d false false deco.
Proof.
  intros Hd Hc Hw Hs. induction segs as [|[t|n] segs IH]; intros p.
  - simpl. now apply words_after_prev_irrelevant.
  - simpl in Hw. apply andb_true_iff in Hw as [Ht Hw].
    cbn [template_of]. rewrite !append_assoc. simpl. rewrite andb_false_r.
    pose proof (starts_nonword_template segs deco Hs) as Hn.
    destruct (Ascii.eqb "/" d); simpl.
    + rewrite (words_after_enter d t _ Ht Hn). now rewrite (IH Hw).
    + rewrite (words_after_skip d t _ Hd (is_name_all_chars t Ht)).
      now apply IH.
  - simpl in Hw. apply andb_true_iff in Hw as [Ht Hw].
    cbn [template_of]. rewrite !append_assoc. simpl. rewrite !andb_false_r.
    assert (Hn : starts_nonword (String "}" (template_of segs ++ deco)) = true)
      by reflexivity.
    destruct (Ascii.eqb "{" d); simpl.
    + rewrite (words_after_enter d n _ Ht Hn). simpl.
      rewrite Hc. now rewrite (IH Hw).
    + rewrite (words_after_skip d n _ Hd (is_name_all_chars n Ht)). simpl.
      rewrite Hc. now apply IH.
Qed.

Lemma words_after_none d s :
  all_chars (fun c => negb (Ascii.eqb c d)) s = true ->
  words_after d false false s = [].
Proof.
  induction s as [|c s IH]; simpl; [reflexivity|].
  intros [Hc Hs]%andb_true_iff. apply negb_true_iff in Hc. rewrite Hc. auto.
Qed.

Lemma all_chars_impl (p q : ascii -> bool) s :
  (forall c, p c = true -> q c = true) ->
  all_chars p s = true -> all_chars q s = true.
Proof.
  intros H. induction s as [|c s IH]; simpl; [reflexivity|].
  intros [Hc Hs]%andb_true_iff. now rewrite (H c Hc), IH.
Qed.

Lemma findall_literals segs deco :
  well_formed segs = true -> is_decoration deco = true ->
  findall_after "/" (template_of segs ++ deco) = literals segs.
Proof.
  intros Hw [Hs Hd]%andb_true_iff. unfold findall_after.
  rewrite words_after_template by (reflexivity || assumption).
  rewrite words_after_none.
  - rewrite app_nil_r. unfold found, literals. f_equal.
  - revert Hd. apply all_chars_impl. now intros c [H _]%andb_true_iff.
Qed.

Lemma findall_path_variables segs deco :
  well_formed segs = true -> is_decoration deco = true ->
  findall_after "{" (template_of segs ++ deco) = path_variables segs.
Proof.
  intros Hw [Hs Hd]%andb_true_iff. unfold findall_after.
  rewrite words_after_template by (reflexivity || assumption).
  rewrite words_after_none.
  - rewrite app_nil_r. unfold found, path_variables. f_equal.
  - revert Hd. apply all_chars_impl. now intros c [_ H]%andb_true_iff.
Qed.

(** *** Request paths *)

Lemma split_append v s :
  all_chars (fun c => negb (Ascii.eqb c "/")) v = true ->
  split "/" (v ++ s)
  = (v ++ hd "" (split "/" s))%string :: tl (split "/" s).
Proof.
  induction v as [|c v IH]; simpl.
  - intros _. destruct s as [|c s]; simpl; [reflexivity|].
    destruct (Ascii.eqb c "/"); [reflexivity|].
    destruct (split "/" s); reflexivity.
  - intros [Hc Hv]%andb_true_iff. apply negb_true_iff in Hc.
    rewrite Hc, (IH Hv). reflexivity.
Qed.

Lemma is_value_slash_free v :
  is_value v = true -> all_chars (fun c => negb (Ascii.eqb c "/")) v = true.
Proof. unfold is_value. now intros [_ H]%andb_true_iff. Qed.

Lemma split_url values :
  forallb is_value values = true ->
  split "/" (url_of values) = "" :: values.
Proof.
  induction values as [|v values IH]; simpl; [reflexivity|].
  intros [Hv Hs]%andb_true_iff. change (Ascii.eqb "/" "/") with true.
  cbn iota. rewrite (split_append v _ (is_value_slash_free v Hv)), (IH Hs).
  simpl. now rewrite append_empty_r.
Qed.

Lemma nonempty_segments_url values :
  forallb is_value values = true ->
  nonempty_segments (url_of values) = values.
Proof.
  intros H. unfold nonempty_segments. rewrite (split_url values H). simpl.
  apply filter_fixed. apply forallb_forall. intros x Hx.
  rewrite forallb_forall in H. apply H in Hx. unfold is_value in Hx.
  now apply andb_true_iff in Hx as [Hx _].
Qed.

Lemma is_name_value t : is_name t = true -> is_value t = true.
Proof.
  unfold is_name, is_value. intros [Hn Hw]%andb_true_iff. rewrite Hn. simpl.
  revert Hw. apply all_chars_impl. intros c Hc. apply negb_true_iff.
  now apply is_word_neq.
Qed.

Lemma instantiates_values segs values :
  well_formed segs = true ->
  instantiates segs values = true ->
  forallb is_value values = true.
Proof.
  revert values. induction segs as [|[t|n] segs IH]; intros [|v values];
    simpl; try discriminate; auto.
  - intros [Ht Hw]%andb_true_iff [Hv Hi]%andb_true_iff.
    apply String.eqb_eq in Hv. subst v.
    now rewrite (is_name_value t Ht), (IH values Hw Hi).
  - intros [_ Hw]%andb_true_iff [Hv Hi]%andb_true_iff.
    now rewrite Hv, (IH values Hw Hi).
Qed.

Lemma instantiates_length segs values :
  instantiates segs values = true ->
  length (path_variables segs) + length (literals segs) = length values.
Proof.
  revert values. induction segs as [|[t|n] segs IH]; intros [|v values];
    simpl; try discriminate; auto.
  - intros [_ Hi]%andb_true_iff. apply IH in Hi.
    unfold path_variables, literals in *. lia.
  - intros [_ Hi]%andb_true_iff. apply IH in Hi.
    unfold path_variables, literals in *. lia.
Qed.

Lemma instantiates_literals segs values x :
  instantiates segs values = true ->
  In x (literals segs) -> In x values.
Proof.
  revert values. induction segs as [|[t|n] segs IH]; intros [|v values];
    simpl; try discriminate; try tauto.
  - intros [Hv Hi]%andb_true_iff. apply String.eqb_eq in Hv. subst v.
    intros [->|Hx]; [now left | right; now apply (IH values)].
  - intros [_ Hi]%andb_true_iff Hx. right. now apply (IH values).
Qed.

(** Dropping the segments that are literal tokens leaves at most one
    value per path variable, and fewer when a variable is given a
    token as its value. *)
Lemma instantiates_remaining tokens segs values :
  instantiates segs values = true ->
  (forall t, In t (literals segs) -> In t tokens) ->
  length (filter (fun s => negb (str_in s tokens)) values)
  <= length (path_variables segs)
  /\ (clashes tokens segs values = true ->
      length (filter (fun s => negb (str_in s tokens)) values)
      < length (path_variables segs)).
Proof.
  revert values. induction segs as [|[t|n] segs IH]; intros [|v values];
    simpl; try discriminate.
  - intros _ _. split; [lia | discriminate].
  - intros [Hv Hi]%andb_true_iff Ht. apply String.eqb_eq in Hv. subst v.
    assert (Hin : str_in t tokens = true) by (apply str_in_In, Ht; now left).
    rewrite Hin. simpl. apply IH; [assumption|]. intros x Hx. apply Ht.
    now right.
  - intros [_ Hi]%andb_true_iff Ht.
    destruct (IH values Hi Ht) as [Hle Hlt].
    destruct (str_in v tokens); simpl.
    + split; [lia|]. intros _. unfold path_variables in *. lia.
    + split; [unfold path_variables in *; lia|].
      intros Hc. apply Hlt in Hc. unfold path_variables in *. lia.
Qed.

(** *** Counting the positional values *)

Lemma _arguments_loop_length request params a :
  RestHandler._arguments_loop request params = inr a ->
  length a = length params.
Proof.
  revert a. induction params as [|p params IH]; simpl; intros a.
  - intros H. injection H as <-. reflexivity.
  - destruct (dict_get (request_arguments request) p) as [[|v0 v]|];
      try discriminate;
      destruct (RestHandler._arguments_loop request params) as [e|values];
      try discriminate; intros H; injection H as <-; simpl;
      now rewrite (IH values eq_refl).
Qed.

Lemma _convert_loop_length values types i p :
  RestHandler._convert_loop values types i = inr p ->
  length p = length values.
Proof.
  revert i p. induction values as [|v values IH]; simpl; intros i p.
  - intros H. injection H as <-. reflexivity.
  - destruct v as [raw|].
    + destruct (nth_error types i) as [t|]; [|discriminate].
      destruct (types.convert raw t) as [e|x]; [discriminate|].
      destruct (RestHandler._convert_loop values types (S i)) as [e|ps] eqn:E;
        [discriminate|].
      intros H. injection H as <-. simpl. now rewrite (IH _ _ E).
    + destruct (RestHandler._convert_loop values types (S i)) as [e|ps] eqn:E;
        [discriminate|].
      intros H. injection H as <-. simpl. now rewrite (IH _ _ E).
Qed.

Lemma distinct_NoDup l : distinct l = true -> NoDup l.
Proof.
  induction l as [|x l IH]; simpl; [constructor|].
  intros [Hx Hl]%andb_true_iff. apply negb_true_iff, str_in_false in Hx.
  constructor; auto.
Qed.

Lemma filter_not_in_length a b :
  distinct a = true -> subset a b = true ->
  length (filter (fun item => negb (str_in item a)) b) + length a <= length b.
Proof.
  intros Hd Hs.
  pose proof (filter_length (fun item => str_in item a) b) as L.
  assert (length a <= length (filter (fun item => str_in item a) b)).
  { apply NoDup_incl_length; [now apply distinct_NoDup|].
    intros x Hx. apply filter_In. split.
    - unfold subset in Hs. rewrite forallb_forall in Hs.
      apply str_in_In. now apply Hs.
    - now apply str_in_In. }
  lia.
Qed.

Lemma _find_params_value_of_arguments_length request op a :
  distinct (_service_params op) = true ->
  subset (_service_params op) (_func_params op) = true ->
  RestHandler._find_params_value_of_arguments request op = inr a ->
  length a + length (_service_params op) <= length (_func_params op).
Proof.
  intros Hd Hs. unfold RestHandler._find_params_value_of_arguments.
  pose proof (filter_not_in_length _ _ Hd Hs) as L.
  destruct (0 <? length (request_arguments request))%nat.
  - intros H. apply _arguments_loop_length in H. lia.
  - destruct (_ && _); intros H; injection H as <-; simpl; [|lia].
    unfold list_mul. rewrite repeat_length. lia.
Qed.

Lemma positional_values_length PY2 request op p :
  distinct (_service_params op) = true ->
  subset (_service_params op) (_func_params op) = true ->
  positional_values PY2 request op = inr p ->
  length p + length (_service_params op)
  <= length (RestHandler._find_params_value_of_url
               (_service_name op) (request_path request))
     + length (_func_params op).
Proof.
  intros Hd Hs. unfold positional_values.
  destruct (RestHandler._find_params_value_of_arguments request op) as [e|a] eqn:E;
    [discriminate|].
  intros H. apply _convert_loop_length in H.
  apply (_find_params_value_of_arguments_length _ _ _ Hd Hs) in E.
  rewrite H, length_app, length_map. lia.
Qed.

(** *** A path variable whose value is a literal token *)

Lemma _arguments_loop_raises request params e :
  RestHandler._arguments_loop request params = inl e -> is_HTTPError e = false.
Proof.
  induction params as [|p params IH]; simpl; [discriminate|].
  destruct (dict_get (request_arguments request) p) as [[|v0 v]|].
  - intros H. injection H as <-. reflexivity.
  - destruct (RestHandler._arguments_loop request params); [|discriminate].
    intros H. injection H as <-. now apply IH.
  - destruct (RestHandler._arguments_loop request params); [|discriminate].
    intros H. injection H as <-. now apply IH.
Qed.

Lemma convert_raises raw t e :
  types.convert raw t = inl e -> is_HTTPError e = false.
Proof.
  unfold types.convert. destruct t as [[|]|].
  - discriminate.
  - destruct (types.parse_int raw); [discriminate|].
    intros H. injection H as <-. reflexivity.
  - intros H. injection H as <-. reflexivity.
Qed.

Lemma _convert_loop_raises values types i e :
  RestHandler._convert_loop values types i = inl e -> is_HTTPError e = false.
Proof.
  revert i. induction values as [|v values IH]; simpl; intros i;
    [discriminate|].
  destruct v as [raw|].
  - destruct (nth_error types i) as [t|].
    + destruct (types.convert raw t) as [e'|x] eqn:E.
      * intros H. injection H as <-. now apply convert_raises in E.
      * destruct (RestHandler._convert_loop values types (S i)) eqn:E';
          [|discriminate].
        intros H. injection H as <-. now apply IH in E'.
    + intros H. injection H as <-. reflexivity.
  - destruct (RestHandler._convert_loop values types (S i)) eqn:E';
      [|discriminate].
    intros H. injection H as <-. now apply IH in E'.
Qed.

Lemma positional_values_raises PY2 request op e :
  positional_values PY2 request op = inl e -> is_HTTPError e = false.
Proof.
  unfold positional_values.
  destruct (RestHandler._find_params_value_of_arguments request op) as [e'|a] eqn:E.
  - intros H. injection H as <-. revert E.
    unfold RestHandler._find_params_value_of_arguments.
    destruct (0 <? _)%nat; [apply _arguments_loop_raises|].
    destruct (_ && _); discriminate.
  - apply _convert_loop_raises.
Qed.

Lemma translated_other PY2 log e :
  is_HTTPError e = false ->
  translated PY2 log e
  = (closed (error_page 500 "Internal Server Error") log,
     inl (RestHandler.reraise PY2 e)).
Proof. destruct e; (discriminate || reflexivity). Qed.

Lemma call_missing_arguments f p :
  argspec_defaults f = [] ->
  length p < length (tl (argspec_args f)) ->
  call f p = inl (TypeError "positional arguments").
Proof.
  intros Hd H. unfold call. rewrite Hd.
  assert (L : S (length p) < length (argspec_args f))
    by (destruct (argspec_args f); simpl in *; lia).
  destruct (Nat.leb_spec (S (length p)) (length (argspec_args f))) as [_|];
    [|lia].
  destruct (Nat.leb_spec (length (argspec_args f) - S (length p))
                         (length (@nil pyval))) as [E|_];
    [simpl in E; lia | reflexivity].
Qed.

(** C10. For a descriptor built from a template of literal and
    path-variable segments whose path variables are distinct parameters
    of its function, a function without default values: when a request
    fills the template position by position and gives some path
    variable one of the literal tokens as its value, the descriptor
    matches, extraction yields fewer values than there are path
    variables, and the request ends as an internal error that [_exe]
    raises again; the function is either called with fewer positional
    arguments than it has parameters, which fails, or not called
    because extraction or coercion failed first. *)
Theorem C10_literal_valued_variable
  PY2 f method kw op segs deco values request pre post :
  config f method kw = inr op ->
  kw_path kw = Some (template_of segs ++ deco)%string ->
  well_formed segs = true ->
  is_decoration deco = true ->
  distinct (path_variables segs) = true ->
  subset (path_variables segs) (tl (argspec_args f)) = true ->
  argspec_defaults f = [] ->
  instantiates segs values = true ->
  clashes (literals segs) segs values = true ->
  request_path request = url_of values ->
  request_method request = method ->
  Forall (fun o => RestHandler.is_match PY2 request o = false) pre ->
  let result :=
    RestHandler._exe PY2 request (pre ++ op :: post) method fresh in
  RestHandler.is_match PY2 request op = true
  /\ length (RestHandler._find_params_value_of_url
               (_service_name op) (request_path request))
     < length (_service_params op)
  /\ exists log e,
      result = (closed (error_page 500 "Internal Server Error") log,
                inl (RestHandler.reraise PY2 e))
      /\ match positional_values PY2 request op with
         | inl e' => log = [] /\ e = e'
         | inr p => log = [(func_name op, p)]
                    /\ length p < length (_func_params op)
                    /\ e = TypeError "positional arguments"
         end.
Proof.
  intros Hc Hk Hw Hdeco Hd Hs Hnd Hi Hcl Hpath Hmeth Hpre result.
  destruct (config_service_name _ _ _ _ Hc)
    as (path & Hk' & _ & Hsn & Hsp & _ & Hfp & Hm & Hf).
  rewrite Hk in Hk'. injection Hk' as <-.
  rewrite (findall_literals segs deco Hw Hdeco) in Hsn.
  rewrite (findall_path_variables segs deco Hw Hdeco) in Hsp.
  pose proof (instantiates_values segs values Hw Hi) as Hv.
  pose proof (nonempty_segments_url values Hv) as Hseg.
  assert (Hmatch : RestHandler.is_match PY2 request op = true).
  { apply is_match_spec.
    - intros x Hx. rewrite Hsn in Hx.
      apply (instantiates_literals _ _ _ Hi) in Hx.
      rewrite forallb_forall in Hv. apply Hv in Hx. unfold is_value in Hx.
      apply andb_true_iff in Hx as [Hx _].
      now apply negb_true_iff, String.eqb_neq in Hx.
    - rewrite Hpath, Hseg, Hsn, Hsp. repeat split.
      + congruence.
      + intros x. apply instantiates_literals. exact Hi.
      + now apply instantiates_length. }
  assert (Hfew : length (RestHandler._find_params_value_of_url
                           (_service_name op) (request_path request))
                 < length (_service_params op)).
  { rewrite _find_params_value_of_url_filter, Hpath, Hseg, Hsn, Hsp.
    now apply (instantiates_remaining (literals segs) segs values Hi). }
  split; [exact Hmatch|]. split; [exact Hfew|].
  subst result.
  rewrite _exe_scan
    by (rewrite map_app; apply str_in_In, in_or_app; right; left; exact Hm).
  rewrite scan_first_match by assumption.
  rewrite handle_fresh. unfold handled.
  destruct (positional_values PY2 request op) as [e|p] eqn:E.
  - exists [], e. rewrite translated_other
      by (now apply positional_values_raises in E). now repeat split.
  - assert (Hlen : length p < length (_func_params op)).
    { assert (Hd' : distinct (_service_params op) = true)
        by (rewrite Hsp; exact Hd).
      assert (Hs' : subset (_service_params op) (_func_params op) = true)
        by (rewrite Hsp, Hfp; exact Hs).
      pose proof (positional_values_length _ _ _ _ Hd' Hs' E). lia. }
    cbv zeta.
    rewrite Hf, call_missing_arguments by (assumption || now rewrite <- Hfp).
    exists [(func_name op, p)], (TypeError "positional arguments").
    now repeat split.
Qed.

Lemma C10_literal_valued_variable_witness :
  RestHandler.is_match false (Examples.GET "/users/users") Examples.getUser
  = true
  /\ RestHandler._find_params_value_of_url ["users"] "/users/users" = []
  /\ RestHandler.get false (Examples.GET "/users/users") [Examples.getUser]
       fresh
     = (closed (error_page 500 "Internal Server Error") [("getUser", [])],
        inl (Exception_with_traceback (TypeError "positional arguments"))).
Proof.
  pose proof (C10_literal_valued_variable false Examples.getUser_def "GET"
                (Examples.path_and_types "/users/{id}" [Some TInt])
                Examples.getUser [Literal "users"; PathVar "id"] ""
                ["users"; "users"] (Examples.GET "/users/users") [] []
                eq_refl eq_refl eq_refl eq_refl eq_refl eq_refl eq_refl
                eq_refl eq_refl eq_refl eq_refl (Forall_nil _))
    as (Hm & _ & log & e & Hr & Hp).
  vm_compute in Hp. destruct Hp as (-> & _ & ->).
  split; [exact Hm|]. split; [reflexivity | exact Hr].
Defined.

(** C10, as first stated, fails when coercion raises before the call:
    with [pair] on [/a/{x}/{y}] and [_types=[int, int]], a GET of
    [/a/a/zzz] gives the variable [x] the literal token [a]; the
    descriptor matches, but the coercion of [zzz] fails before any call,
    so the function is not invoked at all.  It also fails for a
    function with a default value: with [getUser(self, id, q=None)] on
    [/users/{id}<q>], a GET of [/users/users] calls the function with
    the placeholder of [q] alone, which Python accepts, and the client
    gets status 200. *)
Lemma C10_counterexample :
  let request := Examples.GET "/a/a/zzz" in
  let segs := [Literal "a"; PathVar "x"; PathVar "y"] in
  let result := RestHandler.get false request [Examples.pair] fresh in
  let with_default :=
    RestHandler.get false (Examples.GET "/users/users")
      [MoreExamples.getUser_default] fresh in
  _path Examples.pair = template_of segs
  /\ instantiates segs ["a"; "a"; "zzz"] = true
  /\ clashes (literals segs) segs ["a"; "a"; "zzz"] = true
  /\ RestHandler.is_match false request Examples.pair = true
  /\ positional_values false request Examples.pair = inl (ValueError "zzz")
  /\ calls (fst result) = []
  /\ ~ (exists args, In ("pair", args) (calls (fst result)))
  /\ (RestHandler.is_match false (Examples.GET "/users/users")
        MoreExamples.getUser_default = true
      /\ calls (fst with_default) = [("getUser", [VNone])]
      /\ option_map status (sent (fst with_default)) = Some 200%Z
      /\ snd with_default = inr tt).
Proof.
  vm_compute. repeat split. intros [args []].
Qed.

(** Under Python 3 the same happens without a failing coercion: with
    [pair_query] on [/a/{x}/{y}<q>&<r>], a GET of [/a/a/7] with [q] and
    [r] supplied finds no coercion type at the third position. *)
Lemma literal_valued_variable_python3 :
  let request :=
    {| request_path := "/a/a/7"; request_method := "GET";
       request_arguments := [("q", ["5"]); ("r", ["6"])] |} in
  let result := RestHandler.get false request [Examples.pair_query] fresh in
  RestHandler.is_match false request Examples.pair_query = true
  /\ positional_values false request Examples.pair_query = inl IndexError
  /\ calls (fst result) = []
  /\ sent (fst result) = Some (error_page 500 "Internal Server Error").
Proof. vm_compute. repeat split. Qed.

(** ** Further properties of registration *)

Lemma cons_char_all_word c l :
  is_word c = true ->
  (forall x, In x l -> all_chars is_word x = true) ->
  forall x, In x (cons_char c l) -> all_chars is_word x = true.
Proof.
  intros Hc H x. destruct l as [|w ws]; simpl.
  - intros [<-|[]]. simpl. now rewrite Hc.
  - intros [<-|Hx].
    + simpl. rewrite Hc. apply H. now left.
    + apply H. now right.
Qed.

Lemma words_after_all_word d s :
  forall p b x, In x (words_after d p b s) -> all_chars is_word x = true.
Proof.
  induction s as [|c s IH]; intros p b x; simpl.
  - destruct b; [intros [<-|[]]; reflexivity | intros []].
  - destruct b.
    + destruct (is_word c) eqn:Hc.
      * apply cons_char_all_word; [assumption | apply IH].
      * intros [<-|Hx]; [reflexivity | now apply IH in Hx].
    + destruct (p && is_word c) eqn:Hc.
      * apply andb_true_iff in Hc as [_ Hc].
        apply cons_char_all_word; [assumption | apply IH].
      * apply IH.
Qed.

Lemma findall_after_names d s x :
  In x (findall_after d s) -> is_name x = true.
Proof.
  intros H. unfold is_name. apply andb_true_iff. split.
  - apply negb_true_iff, String.eqb_neq. now apply findall_after_nonempty in H.
  - now apply words_after_all_word in H.
Qed.

Lemma all_chars_app p a b :
  all_chars p (a ++ b) = all_chars p a && all_chars p b.
Proof.
  induction a as [|c a IH]; simpl; [reflexivity|].
  now rewrite IH, andb_assoc.
Qed.

Lemma word_not_delimiter c :
  is_word c = true ->
  negb (Ascii.eqb c "/") && negb (Ascii.eqb c "{") = true.
Proof.
  intros H. rewrite (is_word_neq "/" c eq_refl H), (is_word_neq "{" c eq_refl H).
  reflexivity.
Qed.

Lemma markers_decoration ms :
  well_formed_markers ms = true -> is_decoration (markers_of ms) = true.
Proof.
  intros H. unfold is_decoration. apply andb_true_iff. split.
  - destruct ms as [|[n| |] ms]; reflexivity.
  - induction ms as [|[n| |] ms IH]; simpl in *; auto.
    apply andb_true_iff in H as [Hn H].
    rewrite all_chars_app. simpl. rewrite (IH H), andb_true_r.
    apply is_name_all_chars in Hn. revert Hn. apply all_chars_impl.
    apply word_not_delimiter.
Qed.

Lemma words_after_markers ms :
  well_formed_markers ms = true ->
  forall p, words_after "<" p false (markers_of ms) = query_names ms.
Proof.
  induction ms as [|[n| |] ms IH]; intros H p; simpl in *.
  - reflexivity.
  - apply andb_true_iff in H as [Hn H].
    rewrite andb_false_r. change (Ascii.eqb "<" "<") with true.
    rewrite (words_after_enter "<" n (String ">" (markers_of ms)) Hn eq_refl).
    simpl.
    now rewrite (IH H).
  - rewrite andb_false_r. now apply IH.
  - rewrite andb_false_r. now apply IH.
Qed.

Lemma found_query segs : found "<" segs = [].
Proof. induction segs as [|[t|n] segs IH]; simpl; auto. Qed.

Lemma findall_query_names segs ms :
  well_formed segs = true -> well_formed_markers ms = true ->
  findall_after "<" (template_of segs ++ markers_of ms) = query_names ms.
Proof.
  intros Hs Hm. unfold findall_after.
  pose proof (markers_decoration ms Hm) as [Hd _]%andb_true_iff.
  rewrite words_after_template by (reflexivity || assumption).
  now rewrite found_query, words_after_markers.
Qed.

(** X1. A descriptor built from a template of literal and path-variable
    segments followed by query markers lists its literal tokens, its
    path-variable names and its query-variable names in the order in
    which the template has them. *)
Theorem template_names_in_order f method kw op segs ms :
  config f method kw = inr op ->
  kw_path kw = Some (template_of segs ++ markers_of ms)%string ->
  well_formed segs = true ->
  well_formed_markers ms = true ->
  _service_name op = literals segs
  /\ _service_params op = path_variables segs
  /\ _query_params op = query_names ms.
Proof.
  intros Hc Hk Hs Hm.
  destruct (config_service_name _ _ _ _ Hc)
    as (path & Hk' & _ & Hsn & Hsp & Hqp & _).
  rewrite Hk in Hk'. injection Hk' as <-.
  pose proof (markers_decoration ms Hm) as Hd.
  rewrite Hsn, Hsp, Hqp. repeat split.
  - now apply findall_literals.
  - now apply findall_path_variables.
  - now apply findall_query_names.
Qed.

Lemma template_names_in_order_witness :
  _service_name Examples.pair_query = ["a"]
  /\ _service_params Examples.pair_query = ["x"; "y"]
  /\ _query_params Examples.pair_query = ["q"; "r"].
Proof.
  exact (template_names_in_order Examples.pair_query_def "GET"
           (Examples.only_path "/a/{x}/{y}<q>&<r>") Examples.pair_query
           [Literal "a"; PathVar "x"; PathVar "y"]
           [Query "q"; Ampersand; Query "r"]
           eq_refl eq_refl eq_refl eq_refl).
Defined.

(** X2. Whatever the template, every literal token, path-variable name
    and query-variable name of a descriptor is a non-empty run of word
    characters; none is empty and none holds a slash. *)
Theorem descriptor_names_are_words f method kw op x :
  config f method kw = inr op ->
  In x (_service_name op ++ _service_params op ++ _query_params op) ->
  is_name x = true /\ x <> "" /\ has_char "/" x = false.
Proof.
  intros Hc Hx.
  destruct (config_service_name _ _ _ _ Hc)
    as (path & _ & _ & Hsn & Hsp & Hqp & _).
  rewrite Hsn, Hsp, Hqp in Hx.
  assert (Hn : is_name x = true).
  { apply in_app_or in Hx as [Hx|Hx]; [|apply in_app_or in Hx as [Hx|Hx]];
      now apply findall_after_names in Hx. }
  split; [exact Hn|]. unfold is_name in Hn.
  apply andb_true_iff in Hn as [Hne Hw]. split.
  - now apply negb_true_iff, String.eqb_neq in Hne.
  - clear Hne Hx. induction x as [|c x IH]; simpl in *; [reflexivity|].
    apply andb_true_iff in Hw as [Hc' Hw].
    now rewrite (is_word_neq "/" c eq_refl Hc'), (IH Hw).
Qed.

Lemma descriptor_names_are_words_witness :
  is_name "users" = true /\ "users" <> "" /\ has_char "/" "users" = false.
Proof.
  apply (descriptor_names_are_words Examples.getUser_def "GET"
           (Examples.path_and_types "/users/{id}" [Some TInt])
           Examples.getUser "users" eq_refl).
  left. reflexivity.
Defined.

(** ** Further properties of coercion *)

Lemma map2_nth_error {A} PY2 (f : option A -> option A -> option A) xs ys i :
  nth_error (map2 PY2 f xs ys) i
  = match nth_error xs i, nth_error ys i with
    | Some x, Some y => Some (f x y)
    | Some x, None => if PY2 then Some (f x None) else None
    | None, Some y => if PY2 then Some (f None y) else None
    | None, None => None
    end.
Proof.
  revert ys i. induction xs as [|x xs IH]; intros ys i.
  - simpl. destruct PY2.
    + rewrite nth_error_map. rewrite nth_error_nil.
      destruct (nth_error ys i); reflexivity.
    + rewrite !nth_error_nil. destruct (nth_error ys i); reflexivity.
  - destruct ys as [|y ys]; simpl.
    + destruct PY2.
      * destruct i as [|i]; simpl; [reflexivity|].
        rewrite IH, nth_error_nil. reflexivity.
      * rewrite !nth_error_nil. destruct (nth_error (x :: xs) i); reflexivity.
    + destruct i as [|i]; simpl; [reflexivity | apply IH].
Qed.

(** X3. At the position of a path variable the coercion type is the
    declared one, and [str] where the declared slot is [None]; where no
    slot is declared it is [str] under Python 2, and there is no type
    at all under Python 3. *)
Theorem types_of_path_variables PY2 op i :
  i < length (_service_params op) ->
  nth_error (RestHandler.params_types_of PY2 op) i
  = match nth_error (list_or (_types op)
                       (list_mul (Some TStr) (length (_service_params op)))) i
    with
    | Some (Some t) => Some (Some t)
    | Some None => Some (Some TStr)
    | None => if PY2 then Some (Some TStr) else None
    end.
Proof.
  intros Hi. unfold RestHandler.params_types_of. rewrite map2_nth_error.
  unfold list_mul. rewrite (nth_error_repeat (Some TStr) Hi).
  destruct (nth_error _ i) as [[t|]|]; reflexivity.
Qed.

Lemma types_of_path_variables_witness :
  nth_error (RestHandler.params_types_of false Examples.pair) 1
  = Some (Some TInt).
Proof.
  apply (types_of_path_variables false Examples.pair 1). simpl. lia.
Defined.

Lemma _convert_loop_nth values types i p :
  RestHandler._convert_loop values types i = inr p ->
  forall j,
    match nth_error values j with
    | None => nth_error p j = None
    | Some None => nth_error p j = Some VNone
    | Some (Some raw) =>
        exists t x, nth_error types (i + j) = Some t
                    /\ types.convert raw t = inr x
                    /\ nth_error p j = Some x
    end.
Proof.
  revert i p. induction values as [|v values IH]; simpl; intros i p.
  - intros H j. injection H as <-. now destruct j.
  - destruct v as [raw|].
    + destruct (nth_error types i) as [t|] eqn:Et; [|discriminate].
      destruct (types.convert raw t) as [e|x] eqn:Ec; [discriminate|].
      destruct (RestHandler._convert_loop values types (S i)) as [e|ps] eqn:E;
        [discriminate|].
      intros H j. injection H as <-. destruct j as [|j]; simpl.
      * exists t, x. now rewrite Nat.add_0_r.
      * specialize (IH _ _ E j). now rewrite Nat.add_succ_r.
    + destruct (RestHandler._convert_loop values types (S i)) as [e|ps] eqn:E;
        [discriminate|].
      intros H j. injection H as <-. destruct j as [|j]; simpl.
      * reflexivity.
      * specialize (IH _ _ E j). now rewrite Nat.add_succ_r.
Qed.

(** X4. When [_convert_params_values] returns, it returns one value per
    input, in order: [None] stays [None], and every other value is
    coerced with the type at its own position, the positions of [None]
    values counting too. *)
Theorem convert_is_positional values types p :
  RestHandler._convert_params_values values types = inr p ->
  length p = length values
  /\ forall j,
      match nth_error values j with
      | None => nth_error p j = None
      | Some None => nth_error p j = Some VNone
      | Some (Some raw) =>
          exists t x, nth_error types j = Some t
                      /\ types.convert raw t = inr x
                      /\ nth_error p j = Some x
      end.
Proof.
  intros H. split.
  - now apply _convert_loop_length in H.
  - apply (_convert_loop_nth _ _ 0 _ H).
Qed.

Lemma convert_is_positional_witness :
  length [VNone; VInt 42] = length [None; Some "42"]
  /\ forall j,
      match nth_error [None; Some "42"] j with
      | None => nth_error [VNone; VInt 42] j = None
      | Some None => nth_error [VNone; VInt 42] j = Some VNone
      | Some (Some raw) =>
          exists t x, nth_error [Some TStr; Some TInt] j = Some t
                      /\ types.convert raw t = inr x
                      /\ nth_error [VNone; VInt 42] j = Some x
      end.
Proof.
  exact (convert_is_positional [None; Some "42"] [Some TStr; Some TInt]
           [VNone; VInt 42] eq_refl).
Defined.

(** X5. Under Python 3, when the positional values of a request are
    computed without an exception, each of them at a position, counted
    from 0, that is not below the number of path variables of the
    template is [None]. *)
Theorem py3_values_past_path_variables request op p j v :
  positional_values false request op = inr p ->
  length (_service_params op) <= j ->
  nth_error p j = Some v ->
  v = VNone.
Proof.
  unfold positional_values.
  destruct (RestHandler._find_params_value_of_arguments request op) as [e|a];
    [discriminate|].
  intros H Hj Hv. pose proof (_convert_loop_nth _ _ 0 _ H j) as N.
  destruct (nth_error (map Some _ ++ a) j) as [[raw|]|].
  - destruct N as (t & x & Ht & _). simpl in Ht.
    pose proof (params_types_of_py3_length op) as L.
    assert (j < length (RestHandler.params_types_of false op))
      by (apply nth_error_Some; congruence).
    lia.
  - congruence.
  - congruence.
Qed.

Lemma py3_values_past_path_variables_witness : VNone = VNone.
Proof.
  exact (py3_values_past_path_variables (Examples.GET "/search")
           Examples.search [VNone] 0 VNone eq_refl (le_n 0) eq_refl).
Defined.

(** ** Further properties of parameter extraction *)

Lemma instantiates_no_clash tokens segs values :
  instantiates segs values = true ->
  (forall t, In t (literals segs) -> In t tokens) ->
  clashes tokens segs values = false ->
  filter (fun s => negb (str_in s tokens)) values = variable_values segs values.
Proof.
  revert values. induction segs as [|[t|n] segs IH]; intros [|v values];
    simpl; try discriminate; try reflexivity.
  - intros [Hv Hi]%andb_true_iff Ht Hc. apply String.eqb_eq in Hv. subst v.
    assert (Hin : str_in t tokens = true) by (apply str_in_In, Ht; now left).
    rewrite Hin. simpl. apply IH; auto.
  - intros [_ Hi]%andb_true_iff Ht [Hv Hc]%orb_false_iff.
    rewrite Hv. simpl. f_equal. apply IH; auto.
Qed.

Lemma variable_values_length segs values :
  instantiates segs values = true ->
  length (variable_values segs values) = length (path_variables segs).
Proof.
  revert values. induction segs as [|[t|n] segs IH]; intros [|v values];
    simpl; try discriminate; try reflexivity.
  - intros [_ Hi]%andb_true_iff. now apply IH.
  - intros [_ Hi]%andb_true_iff. f_equal. now apply IH.
Qed.

(** X6. When a request path fills a template position by position and
    no path variable is given one of the literal tokens as its value,
    [_find_params_value_of_url] returns exactly the values of the path
    variables, in template order, one for each variable. *)
Theorem extraction_round_trip segs values :
  well_formed segs = true ->
  instantiates segs values = true ->
  clashes (literals segs) segs values = false ->
  RestHandler._find_params_value_of_url (literals segs) (url_of values)
  = variable_values segs values
  /\ length (variable_values segs values) = length (path_variables segs).
Proof.
  intros Hw Hi Hc. split; [|now apply variable_values_length].
  rewrite _find_params_value_of_url_filter.
  rewrite (nonempty_segments_url values (instantiates_values _ _ Hw Hi)).
  now apply instantiates_no_clash.
Qed.

Lemma extraction_round_trip_witness :
  RestHandler._find_params_value_of_url ["a"; "b"] "/a/1/b/2" = ["1"; "2"]
  /\ length ["1"; "2"] = 2.
Proof.
  exact (extraction_round_trip
           [Literal "a"; PathVar "x"; Literal "b"; PathVar "y"]
           ["a"; "1"; "b"; "2"] eq_refl eq_refl eq_refl).
Defined.

Lemma dict_get_In {V} (d : list (string * V)) k v :
  dict_get d k = Some v -> In (k, v) d.
Proof.
  induction d as [|[k' v'] d IH]; simpl; [discriminate|].
  destruct (String.eqb_spec k k') as [->|_].
  - intros H. injection H as ->. now left.
  - intros H. right. now apply IH.
Qed.

Lemma _arguments_loop_map request params :
  (forall k v, In (k, v) (request_arguments request) -> v <> []) ->
  RestHandler._arguments_loop request params
  = inr (map (fun p => option_map (hd "")
                        (dict_get (request_arguments request) p)) params).
Proof.
  intros H. induction params as [|p params IH]; simpl; [reflexivity|].
  rewrite IH. destruct (dict_get (request_arguments request) p) as [v|] eqn:E;
    [|reflexivity].
  destruct v as [|v0 v]; [|reflexivity].
  apply dict_get_In in E. now apply H in E.
Qed.

(** X7. With a query string, whose keys tornado maps to non-empty lists
    of values, [_find_params_value_of_arguments] never raises: it
    returns one entry for each function parameter that is no path
    variable, in the order of the parameters, the first value of the key
    of that name or [None] when the request has no such key.  Keys that
    name no such parameter play no part. *)
Theorem arguments_by_parameter_name request op :
  request_arguments request <> [] ->
  (forall k v, In (k, v) (request_arguments request) -> v <> []) ->
  RestHandler._find_params_value_of_arguments request op
  = inr (map (fun p => option_map (hd "")
                        (dict_get (request_arguments request) p))
             (filter (fun item => negb (str_in item (_service_params op)))
                     (_func_params op))).
Proof.
  intros Hne H. unfold RestHandler._find_params_value_of_arguments.
  destruct (request_arguments request) as [|kv args] eqn:E; [congruence|].
  simpl Nat.ltb. cbv iota. rewrite <- E in *. now apply _arguments_loop_map.
Qed.

Lemma arguments_by_parameter_name_witness :
  RestHandler._find_params_value_of_arguments
    {| request_path := "/a/1/2"; request_method := "GET";
       request_arguments := [("r", ["6"; "7"]); ("x", ["9"]); ("z", ["0"])] |}
    Examples.pair_query
  = inr [None; Some "6"].
Proof.
  apply (arguments_by_parameter_name
           {| request_path := "/a/1/2"; request_method := "GET";
              request_arguments := [("r", ["6"; "7"]); ("x", ["9"]);
                                    ("z", ["0"])] |}
           Examples.pair_query).
  - discriminate.
  - intros k v [H|[H|[H|[]]]]; injection H as <- <-; discriminate.
Defined.

(** ** A request that fills the template *)

Lemma config_decorated f method kw op :
  config f method kw = inr op ->
  exists path,
    kw_path kw = Some path
    /\ op = decorated f method path
              (match kw_produces kw with
               | Some p => p
               | None => mediatypes.APPLICATION_JSON
               end)
              (kw_consumes kw)
              (match kw_types kw with Some t => t | None => [] end)
              (match kw_coroutine kw with Some true => true | _ => false end).
Proof.
  unfold config. destruct (kw_path kw) as [path|].
  - destruct (negb _); [discriminate|]. intros E. injection E as <-.
    now exists path.
  - destruct (0 <? kw_len kw)%nat; discriminate.
Qed.

Lemma instantiates_is_match PY2 request op segs values :
  _service_name op = literals segs ->
  _service_params op = path_variables segs ->
  _method op = request_method request ->
  request_path request = url_of values ->
  well_formed segs = true ->
  instantiates segs values = true ->
  RestHandler.is_match PY2 request op = true.
Proof.
  intros Hsn Hsp Hm Hpath Hw Hi.
  pose proof (instantiates_values segs values Hw Hi) as Hv.
  apply is_match_spec.
  - intros x Hx. rewrite Hsn in Hx.
    apply (instantiates_literals _ _ _ Hi) in Hx.
    rewrite forallb_forall in Hv. apply Hv in Hx. unfold is_value in Hx.
    apply andb_true_iff in Hx as [Hx _].
    now apply negb_true_iff, String.eqb_neq in Hx.
  - rewrite Hpath, (nonempty_segments_url values Hv), Hsn, Hsp.
    repeat split.
    + exact Hm.
    + intros x. apply instantiates_literals. exact Hi.
    + now apply instantiates_length.
Qed.

Lemma list_or_repeat {A} (x : A) m n :
  n <= m -> list_or (repeat x m) (repeat x n) = repeat x m.
Proof.
  destruct m; simpl; [|reflexivity]. intros H.
  assert (n = 0) as -> by lia. reflexivity.
Qed.

Lemma _convert_loop_nones k types i :
  RestHandler._convert_loop (repeat None k) types i = inr (repeat VNone k).
Proof.
  revert i. induction k as [|k IH]; intros i; simpl; [reflexivity|].
  now rewrite IH.
Qed.

Lemma _convert_loop_strings pv k types i :
  (forall j, j < length pv -> nth_error types (i + j) = Some (Some TStr)) ->
  RestHandler._convert_loop (map Some pv ++ repeat None k) types i
  = inr (map VStr pv ++ repeat VNone k).
Proof.
  revert i. induction pv as [|v pv IH]; intros i H; simpl.
  - apply _convert_loop_nones.
  - pose proof (H 0 ltac:(simpl; lia)) as H0. rewrite Nat.add_0_r in H0.
    rewrite H0. simpl. rewrite IH; [reflexivity|].
    intros j Hj. replace (S i + j) with (i + S j) by lia.
    apply H. simpl. lia.
Qed.

(** X8. For a descriptor registered without [_types] on a template of
    segments and query markers, whose function takes the path variables
    first: a request without query string that fills the template, with
    no variable given a literal token as its value, matches, and the
    function is called with the values of the path variables as strings,
    in template order, followed by [None] for each further parameter;
    what the handling then does is what the [except] clauses make of
    the exception that the body raises, or what the response
    negotiation makes of the result that it returns. *)
Theorem dispatch_binds_path_variables
  PY2 f method kw op segs ms self extras values request :
  config f method kw = inr op ->
  kw_path kw = Some (template_of segs ++ markers_of ms)%string ->
  kw_types kw = None ->
  well_formed segs = true ->
  well_formed_markers ms = true ->
  argspec_args f = self :: path_variables segs ++ extras ->
  ((length extras =? 0) || negb (length (query_names ms) =? 0))%nat = true ->
  instantiates segs values = true ->
  clashes (literals segs) segs values = false ->
  request_path request = url_of values ->
  request_method request = method ->
  request_arguments request = [] ->
  let args :=
    map VStr (variable_values segs values) ++ repeat VNone (length extras) in
  let log := [(__name__ f, args)] in
  RestHandler.is_match PY2 request op = true
  /\ positional_values PY2 request op = inr args
  /\ RestHandler.handle PY2 request op fresh
     = match body f args with
       | inl e => translated PY2 log e
       | inr r => answered PY2 (_produces op) log r
       end.
Proof.
  intros Hc Hk Ht Hw Hwm Hargs Hq Hi Hcl Hpath Hmeth Hnoq args log.
  destruct (config_decorated _ _ _ _ Hc) as (path & Hk' & Hop).
  rewrite Hk in Hk'. injection Hk' as <-. rewrite Ht in Hop.
  pose proof (markers_decoration ms Hwm) as Hd.
  assert (Hsn : _service_name op = literals segs)
    by (rewrite Hop; simpl; now apply findall_literals).
  assert (Hsp : _service_params op = path_variables segs)
    by (rewrite Hop; simpl; now apply findall_path_variables).
  assert (Hqp : _query_params op = query_names ms)
    by (rewrite Hop; simpl; now apply findall_query_names).
  assert (Hfp : _func_params op = path_variables segs ++ extras)
    by (rewrite Hop; simpl; now rewrite Hargs).
  assert (Hty : _types op
                = repeat (Some TStr)
                         (length (path_variables segs) + length extras)).
  { rewrite Hop. simpl. rewrite Hargs. simpl. rewrite length_app.
    unfold list_mul. destruct (_ + _); reflexivity. }
  assert (Hfn : func_name op = __name__ f) by (now rewrite Hop).
  assert (Hf : func op = f) by (now rewrite Hop).
  assert (Hm : _method op = request_method request)
    by (rewrite Hop; simpl; congruence).
  pose proof (variable_values_length segs values Hi) as Hlen.
  assert (Hpv : RestHandler._find_params_value_of_url
                  (_service_name op) (request_path request)
                = variable_values segs values).
  { rewrite _find_params_value_of_url_filter, Hpath, Hsn.
    rewrite (nonempty_segments_url values (instantiates_values _ _ Hw Hi)).
    now apply instantiates_no_clash. }
  assert (Ha : RestHandler._find_params_value_of_arguments request op
               = inr (repeat None (length extras))).
  { unfold RestHandler._find_params_value_of_arguments.
    rewrite Hnoq, Hqp, Hfp, Hsp. simpl. unfold list_mul.
    rewrite length_app. replace (_ + _ - _) with (length extras) by lia.
    destruct (0 <? length (query_names ms))%nat eqn:Hz; [reflexivity|].
    apply Nat.ltb_ge in Hz.
    apply orb_true_iff in Hq as [Hq|Hq].
    - apply Nat.eqb_eq in Hq. now rewrite Hq.
    - apply negb_true_iff, Nat.eqb_neq in Hq. lia. }
  assert (Hpos : positional_values PY2 request op = inr args).
  { unfold positional_values. rewrite Ha, Hpv.
    apply _convert_loop_strings. intros j Hj. simpl.
    unfold RestHandler.params_types_of. rewrite map2_nth_error.
    rewrite Hty, Hsp, list_or_repeat by lia. unfold list_mul.
    rewrite !nth_error_repeat by lia. reflexivity. }
  split; [now apply (instantiates_is_match PY2 request op segs values)|].
  split; [exact Hpos|].
  rewrite handle_fresh. unfold handled. rewrite Hpos, Hfn, Hf. cbv zeta.
  assert (Hcall : call f args = body f args).
  { unfold call.
    assert (L : S (length args) = length (argspec_args f)).
    { subst args. rewrite length_app, length_map, repeat_length, Hlen, Hargs.
      simpl. now rewrite length_app. }
    rewrite L, Nat.leb_refl, Nat.sub_diag. simpl Nat.leb. cbv iota.
    now rewrite Nat.sub_0_r, skipn_all, app_nil_r. }
  now rewrite Hcall.
Qed.

Lemma dispatch_binds_path_variables_witness :
  RestHandler.is_match false (Examples.GET "/a/1/2") Examples.pair_query = true
  /\ positional_values false (Examples.GET "/a/1/2") Examples.pair_query
     = inr [VStr "1"; VStr "2"; VNone; VNone]
  /\ RestHandler.handle false (Examples.GET "/a/1/2") Examples.pair_query fresh
     = (closed {| status := 200;
                  headers := [("Content-Type", "application/json")];
                  content := [Chunk_json_dumps
                                [VStr "1"; VStr "2"; VNone; VNone]] |}
               [("pair_query", [VStr "1"; VStr "2"; VNone; VNone])],
        inr false).
Proof.
  exact (dispatch_binds_path_variables false Examples.pair_query_def "GET"
           (Examples.only_path "/a/{x}/{y}<q>&<r>") Examples.pair_query
           [Literal "a"; PathVar "x"; PathVar "y"]
           [Query "q"; Ampersand; Query "r"] "self" ["q"; "r"]
           ["a"; "1"; "2"] (Examples.GET "/a/1/2")
           eq_refl eq_refl eq_refl eq_refl eq_refl eq_refl eq_refl eq_refl
           eq_refl eq_refl eq_refl eq_refl).
Defined.

(** ** Further properties of the scan *)

Lemma kc_ret {A} (a : A) : keeps_calls (ret a).
Proof. intros h. reflexivity. Qed.

Lemma kc_raise {A} (e : exn) : keeps_calls (@raise A e).
Proof. intros h. reflexivity. Qed.

Lemma kc_lift {A} (r : exn + A) : keeps_calls (lift r).
Proof. intros h. reflexivity. Qed.

Lemma kc_bind {A B} (m : M A) (k : A -> M B) :
  keeps_calls m -> (forall a, keeps_calls (k a)) -> keeps_calls (bind m k).
Proof.
  intros Hm Hk h. unfold bind. specialize (Hm h).
  destruct (m h) as [h' [e|a]]; simpl in *; [assumption|].
  now rewrite Hk.
Qed.

Lemma kc_clear : keeps_calls clear.
Proof. intros h. reflexivity. Qed.

Lemma kc_set_status s : keeps_calls (set_status s).
Proof. intros h. reflexivity. Qed.

Lemma kc_set_header k v : keeps_calls (set_header k v).
Proof. intros h. reflexivity. Qed.

Lemma kc_write c : keeps_calls (write c).
Proof.
  intros h. unfold write. destruct (_finished h); [reflexivity|].
  destruct c; try reflexivity. now destruct (json_encodable _).
Qed.

Lemma kc_finish : keeps_calls finish.
Proof.
  intros h. unfold finish. destruct (_finished h); [reflexivity|].
  now destruct (_ && _).
Qed.

Create HintDb kc.

#[local] Hint Resolve kc_ret kc_raise kc_lift kc_clear kc_set_status
  kc_set_header kc_write kc_finish : kc.

Ltac kc :=
  repeat first
    [ apply kc_bind; [|intros ?]
    | solve [auto with kc] ].

Lemma kc_gen_http_error s msg : keeps_calls (RestHandler.gen_http_error s msg).
Proof. unfold RestHandler.gen_http_error. kc. Qed.

#[local] Hint Resolve kc_gen_http_error : kc.

Lemma kc_mismatch produces : keeps_calls (RestHandler.mismatch produces).
Proof. unfold RestHandler.mismatch. kc. Qed.

#[local] Hint Resolve kc_mismatch : kc.

Lemma kc_except PY2 e : keeps_calls (RestHandler.except PY2 e).
Proof. unfold RestHandler.except. destruct e; kc. Qed.

Lemma bind_lift {A B} (r : exn + A) (k : A -> M B) h :
  bind (lift r) k h = match r with inl e => (h, inl e) | inr a => k a h end.
Proof. now destruct r. Qed.

Lemma calls_try_except {A} (m : M A) (k : exn -> M A) h :
  (forall e, keeps_calls (k e)) ->
  calls (fst (try_except m k h)) = calls (fst (m h)).
Proof.
  intros Hk. unfold try_except. destruct (m h) as [h' [e|a]]; [|reflexivity].
  apply Hk.
Qed.

Lemma calls_invoke_bind {B} op p (k : pyval -> M B) h :
  (forall r, keeps_calls (k r)) ->
  calls (fst (bind (invoke op p) k h)) = calls h ++ [(func_name op, p)].
Proof.
  intros Hk. unfold bind, invoke.
  destruct (call (func op) p) as [e|r]; [reflexivity|]. now rewrite Hk.
Qed.

(** The log after handling an operation, on any handler. *)
Lemma handle_calls PY2 request op h :
  calls (fst (RestHandler.handle PY2 request op h))
  = calls h ++ match positional_values PY2 request op with
               | inr p => [(func_name op, p)]
               | inl _ => []
               end.
Proof.
  unfold RestHandler.handle.
  rewrite calls_try_except by (intros e; apply kc_except).
  unfold RestHandler.try_block, positional_values. rewrite bind_lift.
  destruct (RestHandler._find_params_value_of_arguments request op) as [e|a].
  { simpl. now rewrite app_nil_r. }
  cbv beta zeta. rewrite bind_lift.
  destruct (RestHandler._convert_params_values _ _) as [e|p].
  { simpl. now rewrite app_nil_r. }
  apply calls_invoke_bind. intros r.
  destruct r; kc;
    match goal with |- keeps_calls (if ?b then _ else _) => destruct b end;
    kc.
Qed.

(** X9. Whatever the state of the handler, every call that [_exe] adds
    to the log is the call of one of the handler's operations that
    matches the request, so of an operation with the verb of the
    request, with the positional values computed from the request for
    that operation. *)
Theorem calls_are_of_matching_operations
  PY2 request functions method h name args :
  In (name, args)
     (calls (fst (RestHandler._exe PY2 request functions method h))) ->
  In (name, args) (calls h)
  \/ exists op,
      In op functions
      /\ RestHandler.is_match PY2 request op = true
      /\ _method op = request_method request
      /\ name = func_name op
      /\ positional_values PY2 request op = inr args.
Proof.
  unfold RestHandler._exe. destruct (negb _); [now left|].
  generalize functions as ops. intros ops. revert h.
  induction ops as [|op ops IH]; intros h; simpl; [now left|].
  destruct (RestHandler.is_match PY2 request op) eqn:Hm.
  - unfold bind. pose proof (handle_calls PY2 request op h) as Hc.
    assert (Hop : In (name, args)
                    (calls (fst (RestHandler.handle PY2 request op h))) ->
                  In (name, args) (calls h)
                  \/ exists op0,
                      In op0 (op :: ops)
                      /\ RestHandler.is_match PY2 request op0 = true
                      /\ _method op0 = request_method request
                      /\ name = func_name op0
                      /\ positional_values PY2 request op0 = inr args).
    { rewrite Hc. intros [H|H]%in_app_or; [now left|]. right.
      destruct (positional_values PY2 request op) as [e|p] eqn:E;
        [destruct H|].
      destruct H as [H|[]]. injection H as <- <-.
      exists op. split; [now left|]. split; [exact Hm|].
      split; [|split; [reflexivity | exact E]].
      unfold RestHandler.is_match in Hm.
      apply andb_true_iff in Hm as [[Hm _]%andb_true_iff _].
      now apply String.eqb_eq. }
    destruct (RestHandler.handle PY2 request op h) as [h' [e|[|]]];
      simpl in *; try exact Hop.
    intros H. apply IH in H as [H|(op0 & Hin & H)].
    + now apply Hop.
    + right. exists op0. split; [now right | exact H].
  - intros H. apply IH in H as [H|(op0 & Hin & H)]; [now left|].
    right. exists op0. split; [now right | exact H].
Qed.

Lemma calls_are_of_matching_operations_witness :
  In ("getUser", [VStr "active"]) (calls fresh)
  \/ exists op,
      In op [Examples.getActive; Examples.getUser_untyped]
      /\ RestHandler.is_match false (Examples.GET "/users/active") op = true
      /\ _method op = request_method (Examples.GET "/users/active")
      /\ "getUser" = func_name op
      /\ positional_values false (Examples.GET "/users/active") op
         = inr [VStr "active"].
Proof.
  apply (calls_are_of_matching_operations false
           (Examples.GET "/users/active")
           [Examples.getActive; Examples.getUser_untyped] "GET" fresh
           "getUser" [VStr "active"]).
  right. left. reflexivity.
Defined.

Lemma translated_stops_or_closed PY2 log e :
  match translated PY2 log e with
  | (h', inr false) => exists r log', h' = closed r log'
  | _ => True
  end.
Proof.
  destruct e; simpl; eauto. destruct (no_body status_code); simpl; eauto.
Qed.

Lemma handled_stops_or_closed PY2 request op :
  match handled PY2 request op with
  | (h', inr false) => exists r log, h' = closed r log
  | _ => True
  end.
Proof.
  unfold handled.
  destruct (positional_values PY2 request op) as [e|p];
    [apply translated_stops_or_closed|].
  cbv zeta. destruct (call (func op) p) as [e|r];
    [apply translated_stops_or_closed|].
  unfold answered.
  destruct r; eauto;
    (destruct (supported (_produces op) _); eauto);
    (destruct (encodes _); eauto);
    apply translated_stops_or_closed.
Qed.

(** X10. On a fresh handler the response of a request is the one that
    the handling of the first matching operation sends, or none when
    that sends none: the operations scanned afterwards change nothing
    of it. *)
Theorem first_match_decides_response PY2 request pre op post method :
  str_in method (map _method (pre ++ op :: post)) = true ->
  Forall (fun o => RestHandler.is_match PY2 request o = false) pre ->
  RestHandler.is_match PY2 request op = true ->
  sent (fst (RestHandler._exe PY2 request (pre ++ op :: post) method fresh))
  = sent (fst (RestHandler.handle PY2 request op fresh)).
Proof.
  intros Hv Hpre Hop.
  rewrite _exe_scan, scan_first_match by assumption.
  rewrite handle_fresh.
  pose proof (handled_stops_or_closed PY2 request op) as H.
  destruct (handled PY2 request op) as [h' [e|[|]]]; try reflexivity.
  destruct H as (r & log & ->). apply scan_closed_sent.
Qed.

Lemma first_match_decides_response_witness :
  sent (fst (RestHandler._exe false (Examples.GET "/users/active")
               [Examples.getActive; Examples.getUser_untyped] "GET" fresh))
  = sent (fst (RestHandler.handle false (Examples.GET "/users/active")
                 Examples.getActive fresh)).
Proof.
  exact (first_match_decides_response false (Examples.GET "/users/active")
           [] Examples.getActive [Examples.getUser_untyped] "GET"
           eq_refl (Forall_nil _) eq_refl).
Defined.

(** X11. When the function of the first matching operation returns
    [None] on a fresh handler, [_exe] returns at once: the call is the
    only one made, no later operation is examined, and nothing is
    written, finished or sent. *)
Theorem none_result_ends_the_scan PY2 request pre op post method p :
  str_in method (map _method (pre ++ op :: post)) = true ->
  Forall (fun o => RestHandler.is_match PY2 request o = false) pre ->
  RestHandler.is_match PY2 request op = true ->
  positional_values PY2 request op = inr p ->
  call (func op) p = inr VNone ->
  RestHandler._exe PY2 request (pre ++ op :: post) method fresh
  = (called [(func_name op, p)], inr tt).
Proof.
  intros Hv Hpre Hop Hp Hc.
  rewrite _exe_scan, scan_first_match by assumption.
  rewrite handle_fresh. unfold handled. now rewrite Hp, Hc.
Qed.

Lemma none_result_ends_the_scan_witness :
  RestHandler._exe false (Examples.GET "/ping")
    [MoreExamples.ping; MoreExamples.ping] "GET" fresh
  = (called [("ping", [])], inr tt).
Proof.
  exact (none_result_ends_the_scan false (Examples.GET "/ping") []
           MoreExamples.ping [MoreExamples.ping] "GET" []
           eq_refl (Forall_nil _) eq_refl eq_refl eq_refl).
Defined.

(** X12. When the function of the first matching operation returns, on
    a fresh handler, a result of a supported shape that can be written
    (a list or a dict that [json] can encode under application/json, a
    document under application/xml or text/xml), the response has
    status 200 and one Content-Type, the produced type for a list or a
    document and the transport's [application/json; charset=UTF-8] for
    a dict; its body is the [json.dumps] of the list, the [toxml()] of
    the document, or the dict; handling it raises nothing. *)
Theorem supported_results_are_sent PY2 request pre op post method p r :
  str_in method (map _method (pre ++ op :: post)) = true ->
  Forall (fun o => RestHandler.is_match PY2 request o = false) pre ->
  RestHandler.is_match PY2 request op = true ->
  positional_values PY2 request op = inr p ->
  call (func op) p = inr r ->
  supported (_produces op) r = true ->
  encodes r = true ->
  let page := {| status := 200;
                 headers := [("Content-Type",
                              match r with
                              | VDict _ => "application/json; charset=UTF-8"
                              | _ => _produces op
                              end)];
                 content := match r with
                            | VDict d => [Chunk_dict d]
                            | VList l => [Chunk_json_dumps l]
                            | VDoc xml => [Chunk_str xml]
                            | _ => []
                            end |} in
  RestHandler.handle PY2 request op fresh
  = (closed page [(func_name op, p)], inr false)
  /\ sent (fst (RestHandler._exe PY2 request (pre ++ op :: post) method
                  fresh))
     = Some page.
Proof.
  intros Hv Hpre Hop Hp Hc Hs He page.
  rewrite _exe_scan, scan_first_match by assumption.
  rewrite handle_fresh, (handled_result _ _ _ _ _ Hp Hc).
  assert (Ha : answered PY2 (_produces op) [(func_name op, p)] r
               = (closed page [(func_name op, p)], inr false)).
  { unfold answered. rewrite Hs, He. now destruct r. }
  rewrite Ha, scan_closed_sent. now split.
Qed.

Lemma supported_results_are_sent_witness :
  sent (fst (RestHandler._exe false (Examples.GET "/feed")
               [MoreExamples.feed] "GET" fresh))
  = Some {| status := 200;
            headers := [("Content-Type", "application/xml")];
            content := [Chunk_str "<feed/>"] |}
  /\ sent (fst (RestHandler._exe false (Examples.GET "/items")
                  [Examples.addItem; Examples.listItems] "GET" fresh))
     = Some {| status := 200;
               headers := [("Content-Type", "application/json")];
               content := [Chunk_json_dumps []] |}
  /\ sent (fst (RestHandler._exe false (Examples.GET "/users/42")
                  [Examples.getUser] "GET" fresh))
     = Some {| status := 200;
               headers := [("Content-Type",
                            "application/json; charset=UTF-8")];
               content := [Chunk_dict [("id", VInt 1)]] |}.
Proof.
  split; [|split].
  - exact (proj2 (supported_results_are_sent false (Examples.GET "/feed") []
                    MoreExamples.feed [] "GET" [] (VDoc "<feed/>")
                    eq_refl (Forall_nil _) eq_refl eq_refl eq_refl eq_refl
                    eq_refl)).
  - exact (proj2 (supported_results_are_sent false (Examples.GET "/items")
                    [Examples.addItem] Examples.listItems [] "GET" []
                    (VList [])
                    eq_refl
                    (Forall_cons Examples.addItem
                       (eq_refl : RestHandler.is_match false
                                    (Examples.GET "/items") Examples.addItem
                                  = false)
                       (Forall_nil _))
                    eq_refl eq_refl eq_refl eq_refl eq_refl)).
  - exact (proj2 (supported_results_are_sent false
                    (Examples.GET "/users/42") []
                    Examples.getUser [] "GET" [VInt 42]
                    (VDict [("id", VInt 1)])
                    eq_refl (Forall_nil _) eq_refl eq_refl eq_refl eq_refl
                    eq_refl)).
Defined.

(** *** What [_exe] raises *)

Lemma nh_ret {A} (a : A) : raises_no_HTTPError (ret a).
Proof. intros h e. discriminate. Qed.

Lemma nh_bind {A B} (m : M A) (k : A -> M B) :
  raises_no_HTTPError m -> (forall a, raises_no_HTTPError (k a)) ->
  raises_no_HTTPError (bind m k).
Proof.
  intros Hm Hk h e. unfold bind. specialize (Hm h).
  destruct (m h) as [h' [e'|a]]; simpl in *.
  - intros H. injection H as <-. now apply Hm.
  - apply Hk.
Qed.

Lemma nh_clear : raises_no_HTTPError clear.
Proof. intros h e. discriminate. Qed.

Lemma nh_set_status s : raises_no_HTTPError (set_status s).
Proof. intros h e. discriminate. Qed.

Lemma nh_write c : raises_no_HTTPError (write c).
Proof.
  intros h e. unfold write.
  destruct (_finished h);
    [|destruct c; try discriminate;
      destruct (json_encodable (VDict d)); try discriminate];
    intros H; injection H as <-; reflexivity.
Qed.

Lemma nh_finish : raises_no_HTTPError finish.
Proof.
  intros h e. unfold finish.
  destruct (_finished h); simpl;
    [|destruct (_ && _); try discriminate];
    intros H; injection H as <-; reflexivity.
Qed.

Lemma nh_gen_http_error s msg :
  raises_no_HTTPError (RestHandler.gen_http_error s msg).
Proof.
  unfold RestHandler.gen_http_error.
  repeat (apply nh_bind; [|intros ?]);
    auto using nh_clear, nh_set_status, nh_write, nh_finish.
Qed.

Lemma nh_except PY2 e : raises_no_HTTPError (RestHandler.except PY2 e).
Proof.
  assert (R : forall x, raises_no_HTTPError
                          (@raise bool (RestHandler.reraise PY2 x))).
  { intros x h e' H. injection H as <-. unfold RestHandler.reraise.
    now destruct PY2. }
  unfold RestHandler.except.
  destruct e; apply nh_bind; try apply nh_gen_http_error; intros _;
    (apply nh_ret || apply R).
Qed.

Lemma nh_handle PY2 request op :
  raises_no_HTTPError (RestHandler.handle PY2 request op).
Proof.
  intros h e. unfold RestHandler.handle, try_except.
  destruct (RestHandler.try_block PY2 request op h) as [h' [e'|b]];
    [apply nh_except | discriminate].
Qed.

Lemma nh_scan PY2 request ops :
  raises_no_HTTPError (RestHandler.scan PY2 request ops).
Proof.
  induction ops as [|op ops IH]; simpl; [apply nh_ret|].
  destruct (RestHandler.is_match PY2 request op); [|exact IH].
  apply nh_bind; [apply nh_handle|]. intros [|]; [apply nh_ret | exact IH].
Qed.

(** X13. The only [HTTPError] that leaves [_exe] is the 405 of the verb
    gate: [_exe] raises an [HTTPError] exactly when no operation of the
    handler declares the verb, whatever the operations raise and
    whatever the state of the handler. *)
Theorem HTTPError_only_from_verb_gate PY2 request functions method h :
  (exists e, snd (RestHandler._exe PY2 request functions method h) = inl e
             /\ is_HTTPError e = true)
  <-> str_in method (map _method functions) = false.
Proof.
  unfold RestHandler._exe.
  destruct (str_in method (map _method functions)); simpl.
  - split; [|discriminate]. intros (e & He & Hh).
    apply nh_scan in He. congruence.
  - split; [reflexivity|]. intros _. eexists. split; reflexivity.
Qed.

(** ** Route patterns *)

#[local] Arguments Ascii.eqb : simpl nomatch.

Lemma has_char_app c a b :
  has_char c (a ++ b) = has_char c a || has_char c b.
Proof.
  induction a as [|x a IH]; simpl; [reflexivity|].
  now rewrite IH, orb_assoc.
Qed.

Lemma has_char_remove_same c s : has_char c (Re.remove_char c s) = false.
Proof.
  induction s as [|x s IH]; simpl; [reflexivity|].
  destruct (Ascii.eqb x c) eqn:E; simpl; [assumption|]. now rewrite E.
Qed.

Lemma has_char_remove_other c d s :
  has_char c s = false -> has_char c (Re.remove_char d s) = false.
Proof.
  induction s as [|x s IH]; simpl; [reflexivity|].
  intros [Hx Hs]%orb_false_iff.
  destruct (Ascii.eqb x d); simpl; [auto|]. now rewrite Hx, IH.
Qed.

Lemma has_char_delete c d p b s :
  has_char c s = false ->
  has_char c (Re.delete_words_after d p b s) = false.
Proof.
  revert p b. induction s as [|x s IH]; intros p b; simpl; [reflexivity|].
  intros [Hx Hs]%orb_false_iff.
  destruct b; [destruct (is_word x) | destruct (p && is_word x)]; simpl;
    rewrite ?Hx; simpl; auto.
Qed.

(** X14. Whatever the template, its route pattern holds none of the
    marker characters: no opening brace, no angle bracket, no
    ampersand and no question mark. *)
Theorem route_has_no_marker_characters p :
  has_char "{" (route_of p) = false
  /\ has_char "<" (route_of p) = false
  /\ has_char ">" (route_of p) = false
  /\ has_char "&" (route_of p) = false
  /\ has_char "?" (route_of p) = false.
Proof.
  unfold route_of. repeat split.
  - do 4 apply has_char_remove_other. apply has_char_delete.
    apply has_char_remove_same.
  - do 3 apply has_char_remove_other. apply has_char_remove_same.
  - do 2 apply has_char_remove_other. apply has_char_remove_same.
  - apply has_char_remove_other. apply has_char_remove_same.
  - apply has_char_remove_same.
Qed.

Lemma remove_char_id c s : has_char c s = false -> Re.remove_char c s = s.
Proof.
  induction s as [|x s IH]; simpl; [reflexivity|].
  intros [Hx Hs]%orb_false_iff. now rewrite Hx, IH.
Qed.

Lemma remove_char_app c a b :
  Re.remove_char c (a ++ b) = (Re.remove_char c a ++ Re.remove_char c b)%string.
Proof.
  induction a as [|x a IH]; simpl; [reflexivity|].
  destruct (Ascii.eqb x c); simpl; now rewrite IH.
Qed.

Lemma word_has_no c w :
  is_word c = false -> all_chars is_word w = true -> has_char c w = false.
Proof.
  intros Hc. induction w as [|x w IH]; simpl; [reflexivity|].
  intros [Hx Hw]%andb_true_iff. now rewrite (is_word_neq c x Hc Hx), IH.
Qed.

Lemma sub_word_run w rest :
  all_chars is_word w = true ->
  Re.sub_path_variables false None (w ++ rest)
  = (w ++ Re.sub_path_variables false None rest)%string.
Proof.
  induction w as [|c w IH]; simpl; [reflexivity|].
  intros [Hc Hw]%andb_true_iff.
  now rewrite (is_word_neq "{" c eq_refl Hc), (IH Hw).
Qed.

Lemma sub_pending q buf w rest :
  all_chars is_word w = true ->
  Re.sub_path_variables q (Some buf) (w ++ String "}" rest)
  = (".*" ++ Re.sub_path_variables false None rest)%string.
Proof.
  revert q buf. induction w as [|c w IH]; intros q buf; simpl.
  - reflexivity.
  - intros [Hc Hw]%andb_true_iff. rewrite Hc. now apply IH.
Qed.

Lemma sub_id s :
  has_char "{" s = false -> Re.sub_path_variables false None s = s.
Proof.
  induction s as [|c s IH]; simpl; [reflexivity|].
  intros [Hc Hs]%orb_false_iff. now rewrite Hc, IH.
Qed.

Lemma sub_template segs deco :
  well_formed segs = true ->
  has_char "{" deco = false ->
  Re.remove_char "{"
    (Re.sub_path_variables false None (template_of segs ++ deco))
  = (route_pattern segs ++ deco)%string.
Proof.
  intros Hw Hd. induction segs as [|[t|n] segs IH].
  - simpl. rewrite (sub_id deco Hd). now apply remove_char_id.
  - simpl in Hw. apply andb_true_iff in Hw as [Ht Hw].
    apply is_name_all_chars in Ht.
    cbn [template_of route_pattern]. rewrite !append_assoc. simpl.
    rewrite (sub_word_run t _ Ht), remove_char_app.
    rewrite (remove_char_id "{" t (word_has_no "{" t eq_refl Ht)).
    now rewrite (IH Hw).
  - simpl in Hw. apply andb_true_iff in Hw as [Ht Hw].
    destruct n as [|c n]; [discriminate|].
    apply is_name_all_chars in Ht. simpl in Ht.
    apply andb_true_iff in Ht as [Hc Hn].
    cbn [template_of route_pattern]. rewrite !append_assoc. simpl.
    rewrite Hc. rewrite (sub_pending false _ n _ Hn). simpl.
    now rewrite (IH Hw).
Qed.

Lemma delete_prefix d s rest :
  has_char d s = false ->
  Re.delete_words_after d false false (s ++ rest)
  = (s ++ Re.delete_words_after d false false rest)%string.
Proof.
  induction s as [|c s IH]; simpl; [reflexivity|].
  intros [Hc Hs]%orb_false_iff. now rewrite Hc, IH.
Qed.

Lemma delete_in_word d q w x rest :
  all_chars is_word w = true ->
  is_word x = false ->
  Re.delete_words_after d q true (w ++ String x rest)
  = String x (Re.delete_words_after d (Ascii.eqb x d) false rest).
Proof.
  intros Hw Hx. revert q. induction w as [|c w IH]; intros q; simpl.
  - now rewrite Hx.
  - apply andb_true_iff in Hw as [Hc Hw]. rewrite Hc. now apply IH.
Qed.

Lemma delete_markers ms :
  well_formed_markers ms = true ->
  forall p,
    all_chars is_marker_char
      (Re.delete_words_after "<" p false (markers_of ms)) = true.
Proof.
  induction ms as [|[n| |] ms IH]; intros H p; simpl in *.
  - reflexivity.
  - apply andb_true_iff in H as [Hn H]. rewrite andb_false_r. simpl.
    destruct n as [|c n]; [discriminate|].
    apply is_name_all_chars in Hn. simpl in Hn.
    apply andb_true_iff in Hn as [Hc Hn]. simpl. rewrite Hc.
    rewrite (delete_in_word "<" false n ">" _ Hn eq_refl). simpl.
    now apply IH.
  - rewrite andb_false_r. simpl. now apply IH.
  - rewrite andb_false_r. simpl. now apply IH.
Qed.

Lemma strip_markers_all s :
  all_chars is_marker_char s = true -> strip_markers s = "".
Proof.
  unfold strip_markers. induction s as [|c s IH]; simpl; [reflexivity|].
  intros [Hc Hs]%andb_true_iff. unfold is_marker_char in Hc.
  destruct (Ascii.eqb_spec c "<") as [->|_]; [now apply IH|].
  destruct (Ascii.eqb_spec c ">") as [->|_]; [simpl; now apply IH|].
  destruct (Ascii.eqb_spec c "&") as [->|_]; [simpl; now apply IH|].
  destruct (Ascii.eqb_spec c "?") as [->|_]; [simpl; now apply IH|].
  discriminate.
Qed.

Lemma strip_markers_app a b :
  strip_markers (a ++ b) = (strip_markers a ++ strip_markers b)%string.
Proof. unfold strip_markers. now rewrite !remove_char_app. Qed.

Lemma route_pattern_has_no c segs :
  well_formed segs = true ->
  is_word c = false ->
  Ascii.eqb "/" c = false -> Ascii.eqb "." c = false ->
  Ascii.eqb "*" c = false ->
  has_char c (route_pattern segs) = false.
Proof.
  intros Hw Hc H1 H2 H3. induction segs as [|[t|n] segs IH]; simpl in *.
  - reflexivity.
  - apply andb_true_iff in Hw as [Ht Hw]. rewrite H1, has_char_app. simpl.
    now rewrite (word_has_no c t Hc (is_name_all_chars t Ht)), IH.
  - apply andb_true_iff in Hw as [_ Hw]. rewrite H1, H2, H3. simpl. auto.
Qed.

Lemma strip_markers_route_pattern segs :
  well_formed segs = true ->
  strip_markers (route_pattern segs) = route_pattern segs.
Proof.
  intros Hw. unfold strip_markers.
  rewrite (remove_char_id "<"), (remove_char_id ">"), (remove_char_id "&"),
    (remove_char_id "?");
    solve [reflexivity | now apply route_pattern_has_no].
Qed.

Lemma markers_no_brace ms :
  well_formed_markers ms = true -> has_char "{" (markers_of ms) = false.
Proof.
  induction ms as [|[n| |] ms IH]; simpl; auto.
  intros [Hn H]%andb_true_iff. rewrite has_char_app. simpl.
  now rewrite (word_has_no "{" n eq_refl (is_name_all_chars n Hn)), IH.
Qed.

Lemma route_of_template segs ms :
  well_formed segs = true ->
  well_formed_markers ms = true ->
  route_of (template_of segs ++ markers_of ms) = route_pattern segs.
Proof.
  intros Hs Hm. unfold route_of.
  rewrite (sub_template segs _ Hs (markers_no_brace ms Hm)).
  rewrite delete_prefix by (now apply route_pattern_has_no).
  change (Re.remove_char "?" (Re.remove_char "&" (Re.remove_char ">"
            (Re.remove_char "<" ?x)))) with (strip_markers x).
  rewrite strip_markers_app, (strip_markers_route_pattern segs Hs).
  rewrite (strip_markers_all _ (delete_markers ms Hm false)).
  apply append_empty_r.
Qed.

(** X15. The route of a template of literal and path-variable segments
    followed by query markers keeps each literal segment, has [.*] in
    the place of each path variable, and nothing for the query markers. *)
Theorem route_of_segments segs ms :
  well_formed segs = true ->
  well_formed_markers ms = true ->
  route_of (template_of segs ++ markers_of ms) = route_pattern segs
  /\ route_of (template_of segs) = route_pattern segs.
Proof.
  intros Hs Hm. split; [now apply route_of_template|].
  rewrite <- (append_empty_r (template_of segs)).
  exact (route_of_template segs [] Hs eq_refl).
Qed.

Lemma route_of_segments_witness :
  route_of "/a/{x}/{y}<q>&<r>" = "/a/.*/.*"
  /\ route_of "/a/{x}/{y}" = "/a/.*/.*".
Proof.
  exact (route_of_segments [Literal "a"; PathVar "x"; PathVar "y"]
           [Query "q"; Ampersand; Query "r"] eq_refl eq_refl).
Defined.

(** *** Routes and the requests they accept *)

#[local] Arguments Ascii.eqb : simpl nomatch.

Lemma fullmatch_star pattern s :
  Re.fullmatch (String "." (String "*" pattern)) s
  = Re.fullmatch pattern s
    || match s with
       | "" => false
       | String x s' =>
           negb (Ascii.eqb x "010")
           && Re.fullmatch (String "." (String "*" pattern)) s'
       end.
Proof. destruct s; reflexivity. Qed.

Lemma fullmatch_literal c pattern s :
  Ascii.eqb c "." = false ->
  Re.fullmatch (String c pattern) (String c s) = Re.fullmatch pattern s.
Proof.
  intros Hc. simpl. rewrite Hc. simpl.
  destruct pattern; now rewrite Ascii.eqb_refl.
Qed.

Lemma fullmatch_word_prefix w pattern s :
  all_chars is_word w = true ->
  Re.fullmatch (w ++ pattern) (w ++ s) = Re.fullmatch pattern s.
Proof.
  induction w as [|c w IH]; [reflexivity|].
  intros [Hc Hw]%andb_true_iff.
  change (Re.fullmatch (String c (w ++ pattern)) (String c (w ++ s))
          = Re.fullmatch pattern s).
  rewrite fullmatch_literal by (now apply is_word_neq). now apply IH.
Qed.

Lemma fullmatch_star_skip v pattern s :
  has_char "010" v = false ->
  Re.fullmatch pattern s = true ->
  Re.fullmatch (String "." (String "*" pattern)) (v ++ s) = true.
Proof.
  intros Hv Hs. induction v as [|c v IH].
  - simpl append. rewrite fullmatch_star, Hs. reflexivity.
  - simpl in Hv. apply orb_false_iff in Hv as [Hc Hv].
    change (Re.fullmatch (String "." (String "*" pattern))
              (String c (v ++ s)) = true).
    rewrite fullmatch_star, Hc, (IH Hv). simpl. apply orb_true_r.
Qed.

Lemma route_pattern_accepts segs values :
  well_formed segs = true ->
  instantiates segs values = true ->
  forallb (fun v => negb (has_char "010" v)) values = true ->
  Re.fullmatch (route_pattern segs) (url_of values) = true.
Proof.
  revert values. induction segs as [|[t|n] segs IH]; intros [|v values];
    simpl; try discriminate; try reflexivity.
  - intros [Ht Hw]%andb_true_iff [Hv Hi]%andb_true_iff
      [_ Hn]%andb_true_iff.
    apply String.eqb_eq in Hv. subst v.
    change (Re.fullmatch (String "/" (t ++ route_pattern segs))
              (String "/" (t ++ url_of values)) = true).
    rewrite fullmatch_literal by reflexivity.
    rewrite fullmatch_word_prefix by (now apply is_name_all_chars).
    now apply IH.
  - intros [_ Hw]%andb_true_iff [_ Hi]%andb_true_iff
      [Hv Hn]%andb_true_iff.
    apply negb_true_iff in Hv.
    change (Re.fullmatch
              (String "/" (String "." (String "*" (route_pattern segs))))
              (String "/" (v ++ url_of values)) = true).
    rewrite fullmatch_literal by reflexivity.
    apply fullmatch_star_skip; [assumption|]. now apply IH.
Qed.

(** X16. For every handler class given to [RestService] or
    [WSGIRestService] and every operation of it declared on a template
    of segments and query markers, the table holds an entry for that
    class, carrying the shared resource, whose pattern is the route of
    the template; [get_handlers] lists the same pattern; and the pattern
    accepts every request path without newline that fills the template. *)
Theorem routes_accept_instances
  (Resource Extra : Type) rest_handlers (resource : Resource)
  (handlers : option (list Extra)) cls op segs ms values :
  In cls rest_handlers ->
  In op (class_functions cls) ->
  _path op = (template_of segs ++ markers_of ms)%string ->
  well_formed segs = true ->
  well_formed_markers ms = true ->
  instantiates segs values = true ->
  forallb (fun v => negb (has_char "010" v)) values = true ->
  let entry := Rest (route_pattern segs) cls resource in
  In entry (RestService.__init__ Resource Extra rest_handlers resource handlers)
  /\ In entry (WSGIRestService.__init__ Resource Extra rest_handlers resource
                 handlers)
  /\ In (route_pattern segs, cls) (RestHandlerClass.get_handlers cls)
  /\ Re.fullmatch (route_pattern segs) (url_of values) = true.
Proof.
  intros Hcls Hop Hpath Hs Hm Hi Hn entry.
  pose proof (route_of_template segs ms Hs Hm) as Hr.
  assert (Hp : In (_path op) (RestHandlerClass.get_paths cls))
    by (now apply in_map).
  assert (Hg : In entry
                 (RestService._generateRestServices Resource Extra resource
                    cls)).
  { unfold RestService._generateRestServices. subst entry.
    rewrite <- Hr, <- Hpath.
    exact (in_map (fun p => Rest (route_of p) cls resource) _ _ Hp). }
  assert (Hf : In entry
                 (flat_map (RestService._generateRestServices Resource Extra
                              resource) rest_handlers))
    by (apply in_flat_map; now exists cls).
  repeat split.
  - unfold RestService.__init__. destruct handlers; [apply in_or_app|]; auto.
  - unfold WSGIRestService.__init__. destruct handlers;
      [apply in_or_app; left|]; exact Hf.
  - unfold RestHandlerClass.get_handlers. rewrite <- Hr, <- Hpath.
    exact (in_map (fun p => (route_of p, cls)) _ _ Hp).
  - now apply route_pattern_accepts.
Qed.

Lemma routes_accept_instances_witness :
  In (Rest "/users/.*" MoreExamples.Users tt)
     (RestService.__init__ unit unit [MoreExamples.Items; MoreExamples.Users]
        tt None)
  /\ In (Rest "/users/.*" MoreExamples.Users tt)
        (WSGIRestService.__init__ unit unit
           [MoreExamples.Items; MoreExamples.Users] tt None)
  /\ In ("/users/.*", MoreExamples.Users)
        (RestHandlerClass.get_handlers MoreExamples.Users)
  /\ Re.fullmatch "/users/.*" "/users/42" = true.
Proof.
  apply (routes_accept_instances unit unit
           [MoreExamples.Items; MoreExamples.Users] tt None
           MoreExamples.Users Examples.getUser
           [Literal "users"; PathVar "id"] [] ["users"; "42"]).
  - right. left. reflexivity.
  - right. left. reflexivity.
  - reflexivity.
  - reflexivity.
  - reflexivity.
  - reflexivity.
  - reflexivity.
Defined.

(** ** Matching does not depend on the order of the segments *)

(** X17. Whether a descriptor matches depends on the request path only
    through its non-empty segments up to their order: two requests with
    the same verb whose non-empty segments are a permutation of one
    another are matched by the same descriptors. *)
Theorem match_ignores_segment_order PY2 f method kw op request1 request2 :
  config f method kw = inr op ->
  request_method request1 = request_method request2 ->
  Permutation (nonempty_segments (request_path request1))
              (nonempty_segments (request_path request2)) ->
  RestHandler.is_match PY2 request1 op = RestHandler.is_match PY2 request2 op.
Proof.
  intros Hc Hm Hp.
  assert (Hn : forall x, In x (_service_name op) -> x <> "").
  { destruct (config_service_name _ _ _ _ Hc) as (path & _ & _ & Hsn & _).
    intros x Hx. rewrite Hsn in Hx. now apply findall_after_nonempty in Hx. }
  assert (D : forall r1 r2,
             request_method r1 = request_method r2 ->
             Permutation (nonempty_segments (request_path r1))
                         (nonempty_segments (request_path r2)) ->
             RestHandler.is_match PY2 r1 op = true ->
             RestHandler.is_match PY2 r2 op = true).
  { intros r1 r2 Hm' Hp' H. apply (is_match_spec PY2 r1 op Hn) in H.
    destruct H as (Ha & Hb & Hl). apply (is_match_spec PY2 r2 op Hn).
    repeat split.
    - congruence.
    - intros x Hx. apply (Permutation_in _ Hp'). now apply Hb.
    - rewrite Hl. now apply Permutation_length. }
  destruct (RestHandler.is_match PY2 request1 op) eqn:E1;
    destruct (RestHandler.is_match PY2 request2 op) eqn:E2; try reflexivity.
  - apply (D request1 request2 Hm Hp) in E1. congruence.
  - apply (D request2 request1 (eq_sym Hm) (Permutation_sym Hp)) in E2.
    congruence.
Qed.

Lemma match_ignores_segment_order_witness :
  RestHandler.is_match false (Examples.GET "/users/42") Examples.getUser
  = RestHandler.is_match false (Examples.GET "//42/users/") Examples.getUser.
Proof.
  apply (match_ignores_segment_order false Examples.getUser_def "GET"
           (Examples.path_and_types "/users/{id}" [Some TInt])
           Examples.getUser (Examples.GET "/users/42")
           (Examples.GET "//42/users/") eq_refl eq_refl).
  apply perm_swap.
Defined.
